(** * openag firmware command line: [openag/cli/firmware/__init__.py]

    A shallow embedding of the [run] and [run_module] commands and of the
    statements they are built from, with the properties of the firmware
    tool's specification stated over it.

    Python exceptions are values of [exn]; a statement that may raise has a
    result in [res]; code with side effects runs in the monad [M] over a
    [world] holding the mutable dictionaries, the files and the trace of
    externally visible actions.

    The file is Python 2 (implicit relative imports, [communicate] on a
    [str]): [d.items()] is a list of its own, so that the loops of [run]
    may delete from the dictionary they go through.

    The modules that the file imports and that are not part of it
    ([openag.models], [openag.utils], [openag.couch], [base], [plugins],
    [..config]) and the built-ins and libraries of the interpreter are
    parameters, gathered in the classes [Builtins] and [Collaborators]. *)

From Stdlib Require Import ZArith List Ascii String Lia Bool Floats.
From stdpp Require Import base option list strings gmap pretty.

Set Warnings "-register-all".

Local Open Scope string_scope.
Local Open Scope list_scope.
Local Open Scope nat_scope.

(** ** Python values *)

Module Py.

(** The exception classes that the commands raise or let through.
    [BadParameter] is click's subclass of [ClickException]; [ValueError] and
    the others are Python's own. *)
Inductive exn : Type :=
| ClickException (msg : string)
| BadParameter (msg : string)
| RuntimeError (msg : string)
| ValueError
| ImportError
| AttributeError
| TypeError
| KeyError
| IndexError
| IOError
| OSError
| Invalid
| OtherError (name : string).

Inductive res (A : Type) : Type :=
| Ok (a : A)
| Raise (e : exn).

Arguments Ok {A} a.
Arguments Raise {A} e.

Definition res_bind {A B} (r : res A) (k : A → res B) : res B :=
  match r with
  | Ok a => k a
  | Raise e => Raise e
  end.

(** [for x in xs: ys.append(f(x))], stopping at the first exception. *)
Fixpoint res_map {A B} (f : A → res B) (xs : list A) : res (list B) :=
  match xs with
  | [] => Ok []
  | x :: xs' =>
      res_bind (f x) (λ y, res_bind (res_map f xs') (λ ys, Ok (y :: ys)))
  end.

(** The double quote character, for the messages that quote a name. *)
Definition dq : string := String "034"%char EmptyString.

(** [str.lower] on an ASCII string. *)
Definition lower_char (c : ascii) : ascii :=
  let n := nat_of_ascii c in
  if (65 <=? n) && (n <=? 90) then ascii_of_nat (n + 32) else c.

Fixpoint lower (s : string) : string :=
  match s with
  | EmptyString => EmptyString
  | String c s' => String (lower_char c) (lower s')
  end.

(** [str.startswith]. *)
Definition startswith (s p : string) : bool := String.prefix p s.

(** [str.split(sep)] for a separator of one character: the pieces between
    the occurrences of [sep], of which there is always at least one. *)
Fixpoint split_go (sep : ascii) (acc : string) (s : string) : list string :=
  match s with
  | EmptyString => [String.rev acc]
  | String c s' =>
      if Ascii.eqb c sep then String.rev acc :: split_go sep EmptyString s'
      else split_go sep (String c acc) s'
  end.

Definition split (sep : ascii) (s : string) : list string :=
  split_go sep EmptyString s.

(** [xs[-1]] *)
Definition last_item (xs : list string) : res string :=
  match last xs with
  | Some x => Ok x
  | None => Raise IndexError
  end.

(** [xs[0]] *)
Definition first_item (xs : list string) : res string :=
  match xs with
  | x :: _ => Ok x
  | [] => Raise IndexError
  end.

(** [s[-1:]], as a character if there is one. *)
Fixpoint last_char (s : string) : option ascii :=
  match s with
  | EmptyString => None
  | String c EmptyString => Some c
  | String _ s' => last_char s'
  end.

(** The built-ins of the interpreter that the commands call.  [int_of_str]
    and [float_of_str] are [int(s)] and [float(s)] on a string: [None] is
    the [ValueError] of a string that is no literal of the type.  A Python
    float is a binary64 number. *)
Class Builtins : Type := {
  int_of_str : string → option Z;
  float_of_str : string → option float;
}.

Definition py_int `{Builtins} (s : string) : res Z :=
  match int_of_str s with
  | Some n => Ok n
  | None => Raise ValueError
  end.

Definition py_float `{Builtins} (s : string) : res float :=
  match float_of_str s with
  | Some x => Ok x
  | None => Raise ValueError
  end.

(** A command-line argument after coercion. *)
Inductive arg_val : Type :=
| VInt (n : Z)
| VFloat (x : float)
| VBool (b : bool)
| VStr (s : string).

End Py.

Export Py.

(** ** Module types and the argument loop of [run_module] *)

Module Args.

(** One entry of [module_type["arguments"]]. *)
Record arg_info : Type := ArgInfo {
  arg_name : string;
  arg_type : string;
}.

Definition too_many_arguments (got expected : nat) : exn :=
  ClickException
    ("Too many module arguments specified. (Got " +:+ pretty got +:+
     ", expected " +:+ pretty expected +:+ ")").

Definition not_a_boolean (i : nat) : exn :=
  BadParameter
    ("Argument number " +:+ pretty i +:+ " should be a boolean value (" +:+
     dq +:+ "true" +:+ dq +:+ " or " +:+ dq +:+ "false" +:+ dq +:+ ")").

(** Lines 285-298: the coercion of [val] by the declared type. *)
Definition coerce `{Builtins} (i : nat) (type : string) (val : string)
  : res arg_val :=
  if String.eqb type "int" then res_bind (py_int val) (λ n, Ok (VInt n))
  else if String.eqb type "float" then
    res_bind (py_float val) (λ x, Ok (VFloat x))
  else if String.eqb type "bool" then
    if String.eqb (lower val) "true" then Ok (VBool true)
    else if String.eqb (lower val) "false" then Ok (VBool false)
    else Raise (not_a_boolean i)
  else Ok (VStr val).

(** Lines 278-299: the body of the loop at index [i]. *)
Definition parse_argument `{Builtins}
    (arguments : list string) (declared : list arg_info) (i : nat)
  : res arg_val :=
  if length declared <=? i then
    Raise (too_many_arguments (length arguments) (length declared))
  else
    match arguments !! i, declared !! i with
    | Some val, Some info => coerce i (arg_type info) val
    | _, _ => Raise IndexError
    end.

(** Lines 276-299: [for i in range(len(arguments))], collecting
    [real_args]. *)
Definition parse_arguments `{Builtins}
    (arguments : list string) (declared : list arg_info)
  : res (list arg_val) :=
  res_map (parse_argument arguments declared) (seq 0 (length arguments)).

End Args.

Export Args.

(** ** The world the commands act on *)

Module World.

(** A JSON document or the Python value made of dicts, lists and scalars
    that stands for it. *)
Inductive pyval : Type :=
| PNone
| PBool (b : bool)
| PInt (n : Z)
| PFloat (x : float)
| PStr (s : string)
| PList (xs : list pyval)
| PDict (items : list (string * pyval)).

(** [d.items()] *)
Definition items (d : pyval) : res (list (string * pyval)) :=
  match d with
  | PDict kvs => Ok kvs
  | _ => Raise AttributeError
  end.

Definition of_arg_val (v : arg_val) : pyval :=
  match v with
  | VInt n => PInt n
  | VFloat x => PFloat x
  | VBool b => PBool b
  | VStr s => PStr s
  end.

(** A validated module type: what [FirmwareModuleType(doc)] returns, with
    the [arguments] field that [run_module] reads. *)
Record module_type : Type := ModuleType {
  mt_arguments : list arg_info;
  mt_doc : pyval;
}.

(** An entry of a module's [inputs] or [outputs]. *)
Record io_info : Type := IoInfo {
  categories : list string;
  io_type : string;
}.

(** The [inputs] and [outputs] dictionaries are Python objects that [run]
    updates in place: they live in a heap and a module refers to them by
    location. *)
Definition loc : Type := positive.

Record mod_info : Type := ModInfo {
  mi_inputs : loc;
  mi_outputs : loc;
}.

(** The two databases of the server, [openag.db_names]. *)
Inductive db_name : Type :=
| FIRMWARE_MODULE_TYPE
| FIRMWARE_MODULE.

(** What the commands do to the outside, in the order they do it. *)
Inductive event : Type :=
| Echo (msg : string)
| DbIter (db : db_name)
| DbGet (db : db_name) (_id : string)
| Synthesize
| Import (name : string)
| Subprocess (argv : list string) (cwd : option string)
| OpenWrite (path : string)
| WriteText (path text : string)
| Mkdir (path : string)
| Remove (path : string)
| Symlink (source link_name : string).

(** The file system: regular files with their text, directories, and
    symbolic links with the path they resolve to. *)
Record fs : Type := Fs {
  files : gmap string string;
  dirs : gset string;
  links : gmap string string;
}.

Record world : Type := MkWorld {
  heap : gmap loc (gmap string io_info);
  fsys : fs;
  trace : list event;
}.

Definition set_heap (h : gmap loc (gmap string io_info)) (w : world) : world :=
  MkWorld h (fsys w) (trace w).

Definition set_fsys (f : fs) (w : world) : world :=
  MkWorld (heap w) f (trace w).

Definition log (e : event) (w : world) : world :=
  MkWorld (heap w) (fsys w) (trace w ++ [e])%list.

(** Statements: a result or an exception, and the world they leave. *)
Definition M (A : Type) : Type := world → res A * world.

Definition ret {A} (a : A) : M A := λ w, (Ok a, w).

Definition raise {A} (e : exn) : M A := λ w, (Raise e, w).

Definition bind {A B} (m : M A) (k : A → M B) : M B :=
  λ w, match m w with
       | (Ok a, w') => k a w'
       | (Raise e, w') => (Raise e, w')
       end.

#[global] Instance M_ret : MRet M := @ret.

#[global] Instance M_bind : MBind M := λ A B k m, bind m k.

Definition lift {A} (r : res A) : M A := λ w, (r, w).

Definition emit (e : event) : M unit := λ w, (Ok tt, log e w).

Definition get_fs : M fs := λ w, (Ok (fsys w), w).

Definition put_fs (f : fs) : M unit := λ w, (Ok tt, set_fsys f w).

Definition get_heap : M (gmap loc (gmap string io_info)) :=
  λ w, (Ok (heap w), w).

Definition put_heap (h : gmap loc (gmap string io_info)) : M unit :=
  λ w, (Ok tt, set_heap h w).

(** [for x in xs: body(x)] *)
Fixpoint for_each {A} (xs : list A) (body : A → M unit) : M unit :=
  match xs with
  | [] => ret tt
  | x :: xs' => bind (body x) (λ _, for_each xs' body)
  end.

(** A loop that carries the variable it updates. *)
Fixpoint fold_each {A S} (xs : list A) (s : S) (body : S → A → M S) : M S :=
  match xs with
  | [] => ret s
  | x :: xs' => bind (body s x) (λ s', fold_each xs' s' body)
  end.

(** [for x in gen: body(x)] over a generator that yields [fst gen] and
    then either ends or raises [snd gen]. *)
Definition for_gen {A} (gen : list A * option exn) (body : A → M unit)
  : M unit :=
  bind (for_each (fst gen) body)
       (λ _, match snd gen with
             | Some e => raise e
             | None => ret tt
             end).

(** [try: m except: h] with the handler chosen by the exception. *)
Definition try_except {A} (m : M A) (handler : exn → M A) : M A :=
  λ w, match m w with
       | (Ok a, w') => (Ok a, w')
       | (Raise e, w') => handler e w'
       end.

End World.

Export World.

(** ** Paths and files: [os], [os.path] and [open] *)

Module Files.

(** [os.path.join] of two components. *)
Definition path_join (a b : string) : string :=
  if startswith b "/" then b
  else if String.eqb a "" || startswith (String.rev a) "/" then a +:+ b
  else a +:+ "/" +:+ b.

(** [os.path.normpath] of an absolute path: empty and [.] components are
    dropped and [..] removes the component before it. *)
Definition norm_step (stack : list string) (c : string) : list string :=
  if String.eqb c "" || String.eqb c "." then stack
  else if String.eqb c ".." then removelast stack
  else (stack ++ [c])%list.

Definition normpath (p : string) : string :=
  "/" +:+ String.concat "/" (fold_left norm_step (split "/" p) []).

Fixpoint strip_prefix (p s : string) : option string :=
  match p, s with
  | EmptyString, _ => Some s
  | String a p', String b s' =>
      if Ascii.eqb a b then strip_prefix p' s' else None
  | String _ _, EmptyString => None
  end.

(** The name of [p] inside the directory [dir], when [p] is an entry of
    it. *)
Definition child_name (dir p : string) : option string :=
  match strip_prefix (path_join dir "") p with
  | Some n =>
      if String.eqb n "" then None
      else match split "/" n with
           | [_] => Some n
           | _ => None
           end
  | None => None
  end.

(** A path that is a symbolic link stands for its target. *)
Definition resolve (f : fs) (p : string) : string :=
  default p (links f !! p).

(** A path is looked up as it is written: the commands give paths that
    are absolute and have no trailing slash. *)
Definition isfile (f : fs) (p : string) : bool :=
  bool_decide (is_Some (files f !! resolve f p)).

Definition isdir (f : fs) (p : string) : bool :=
  bool_decide (resolve f p ∈ dirs f).

Definition exists_path (f : fs) (p : string) : bool :=
  bool_decide (is_Some (links f !! p)) || isfile f p || isdir f p.

Definition entries (f : fs) : list string :=
  elements (dom (files f) ∪ dirs f ∪ dom (links f)).

Definition os_path_isfile (p : string) : M bool :=
  f ← get_fs; mret (isfile f p).

Definition os_path_isdir (p : string) : M bool :=
  f ← get_fs; mret (isdir f p).

(** [os.listdir]: the names in a directory, in the order the system gives
    them. *)
Definition os_listdir (p : string) : M (list string) :=
  f ← get_fs;
  if isdir f p then mret (omap (child_name (resolve f p)) (entries f))
  else raise OSError.

(** [open(path).read()] *)
Definition read_text (p : string) : M string :=
  f ← get_fs;
  match files f !! resolve f p with
  | Some text => mret text
  | None => raise IOError
  end.

(** [open(path, "w")] and [open(path, "w+")], for [path] the entry [name]
    of [dir]: the file is created, or emptied when it exists. *)
Definition open_w (dir name : string) : M string :=
  let path := path_join dir name in
  f ← get_fs;
  if negb (isdir f dir) || isdir f path then raise IOError
  else
    emit (OpenWrite path);;
    put_fs (Fs (<[resolve f path := ""]> (files f)) (dirs f) (links f));;
    mret path.

(** [f.write(text)] on a file opened at [path] (the text reaches the file
    when the [with] block closes it, whether it ends or raises). *)
Definition file_write (path text : string) : M unit :=
  f ← get_fs;
  emit (WriteText path text);;
  put_fs (Fs (<[resolve f path :=
                 default "" (files f !! resolve f path) +:+ text]> (files f))
             (dirs f) (links f)).

(** [os.mkdir] of the entry [name] of [dir]. *)
Definition os_mkdir (dir name : string) : M unit :=
  let path := path_join dir name in
  f ← get_fs;
  if negb (isdir f dir) || exists_path f path then raise OSError
  else
    emit (Mkdir path);;
    put_fs (Fs (files f) ({[path]} ∪ dirs f) (links f)).

(** [os.remove]: a link is removed itself, not its target. *)
Definition os_remove (path : string) : M unit :=
  f ← get_fs;
  if bool_decide (is_Some (links f !! path)) then
    emit (Remove path);;
    put_fs (Fs (files f) (dirs f) (delete path (links f)))
  else if bool_decide (is_Some (files f !! path)) then
    emit (Remove path);;
    put_fs (Fs (delete path (files f)) (dirs f) (links f))
  else raise OSError.

(** [os.symlink(source, link_name)] for [link_name] the entry [name] of
    [dir]; a relative [source] is taken from [dir]. *)
Definition os_symlink (source dir name : string) : M unit :=
  let link_name := path_join dir name in
  f ← get_fs;
  if negb (isdir f dir) || exists_path f link_name then raise OSError
  else
    emit (Symlink source link_name);;
    put_fs (Fs (files f) (dirs f)
               (<[link_name := normpath (path_join dir source)]> (links f))).

End Files.

Export Files.

(** ** The code outside this file that the commands call *)

Module Collab.

(** What the commands call and do not define.  A function that reads the
    resolved modules takes the mapping and the heap in which the [inputs]
    and [outputs] dictionaries live. *)
Class Collaborators `{Builtins} : Type := {
  (** [os.path.abspath], [subprocess] (the exit status of a command run in
      [cwd] and what it leaves on disk; [OSError] when it cannot start),
      [json.load] and [json.dump]. *)
  abspath : string → string;
  run_process : list string → option string → fs → res (Z * fs);
  json_load : string → res pyval;
  json_dump : pyval → res string;
  (** [config["local_server"]["url"]] *)
  local_server_url : option string;
  (** [openag.couch.Server]: the ids of a database in iteration order and
      the document of an id. *)
  db_ids : string → db_name → res (list string);
  db_doc : string → db_name → string → res pyval;
  (** [openag.models]: the two schemas. *)
  FirmwareModuleType : pyval → res module_type;
  FirmwareModule : pyval → res pyval;
  (** [openag.utils.synthesize_firmware_module_info]: the resolved modules,
      with their [inputs] and [outputs] dictionaries allocated in the
      heap. *)
  synthesize_firmware_module_info :
    gmap string pyval → gmap string module_type →
    gmap loc (gmap string io_info) →
    res (gmap string mod_info * gmap loc (gmap string io_info));
  (** [plugins.plugin_map], [importlib.import_module] (a module is the
      mapping of its attributes), the call of a plugin class on the
      modules. *)
  plugin_cls : Type;
  plugin : Type;
  plugin_map : gmap string plugin_cls;
  import_module : string → res (gmap string plugin_cls);
  new_plugin :
    plugin_cls → gmap string mod_info → gmap loc (gmap string io_info) →
    res plugin;
  (** [base.CodeGen]: its constructor, the two generators of dependencies
      and [write_to], given as the texts it writes to the file and the
      exception that ends it, if any. *)
  codegen : Type;
  CodeGen :
    gmap string mod_info → gmap loc (gmap string io_info) → list plugin →
    Z → res codegen;
  all_pio_dependencies :
    codegen → gmap loc (gmap string io_info) → list string * option exn;
  all_git_dependencies :
    codegen → gmap loc (gmap string io_info) → list string * option exn;
  write_to :
    codegen → gmap loc (gmap string io_info) → list string * option exn;
}.

End Collab.

Export Collab.

(** ** The commands *)

Module Firmware.

Section Commands.

Context `{Collaborators}.

(** Truth of a string that may be [None]: [if s:]. *)
Definition truthy (s : option string) : bool :=
  match s with
  | Some t => negb (String.eqb t "")
  | None => false
  end.

(** [subprocess.call(argv, cwd=cwd)] *)
Definition subprocess_call (argv : list string) (cwd : option string)
  : M Z :=
  emit (Subprocess argv cwd);;
  f ← get_fs;
  '(status, f') ← lift (run_process argv cwd f);
  put_fs f';;
  mret status.

(** *** [init], lines 63-87 *)

Definition init (board project_dir : string) : M unit :=
  let project_dir := abspath project_dir in
  emit (Echo "Initializing PlatformIO project");;
  returncode ←
    try_except
      (subprocess_call ["platformio"; "init"; "-b"; board] (Some project_dir))
      (λ e, match e with
            | OSError => raise (RuntimeError "PlatformIO is not installed")
            | _ => raise e
            end);
  if negb (returncode =? 0)%Z then
    raise (RuntimeError "Failed to initialize PlatformIO project")
  else
    f ← open_w project_dir "modules.json";
    text ← lift (json_dump (PDict []));
    file_write f text;;
    emit (Echo "OpenAg firmware project initialized!").

(** *** [run], lines 107-135: the module types *)

Definition load_server_types (local_server : string)
    (module_types : gmap string module_type) : M (gmap string module_type) :=
  emit (DbIter FIRMWARE_MODULE_TYPE);;
  ids ← lift (db_ids local_server FIRMWARE_MODULE_TYPE);
  fold_each ids module_types (λ module_types _id,
    if startswith _id "_" then mret module_types
    else
      emit (Echo ("Parsing firmware module type " +:+ dq +:+ _id +:+ dq +:+
                  " from server"));;
      emit (DbGet FIRMWARE_MODULE_TYPE _id);;
      doc ← lift (db_doc local_server FIRMWARE_MODULE_TYPE _id);
      t ← lift (FirmwareModuleType doc);
      mret (<[_id := t]> module_types)).

(** Lines 125-135: one turn of the loop over the [lib] folder. *)
Definition load_lib_type (lib_path : string)
    (module_types : gmap string module_type) (dir_name : string)
  : M (gmap string module_type) :=
  let dir_path := path_join lib_path dir_name in
  d ← os_path_isdir dir_path;
  if negb d then mret module_types
  else
    let config_path := path_join dir_path "module.json" in
    c ← os_path_isfile config_path;
    if (c : bool) then
      text ← read_text config_path;
      emit (Echo ("Parsing firmware module type " +:+ dq +:+ dir_name +:+
                  dq +:+ " from lib folder"));;
      doc ← lift (json_load text);
      t ← lift (FirmwareModuleType doc);
      mret (<[dir_name := t]> module_types)
    else mret module_types.

Definition load_lib_types (project_dir : string)
    (module_types : gmap string module_type) : M (gmap string module_type) :=
  let lib_path := path_join project_dir "lib" in
  names ← os_listdir lib_path;
  fold_each names module_types (load_lib_type lib_path).

Definition load_module_types (project_dir : string)
  : M (gmap string module_type) :=
  module_types ←
    (if truthy local_server_url
     then load_server_types (default "" local_server_url) ∅
     else mret ∅);
  load_lib_types project_dir module_types.

(** *** [run], lines 137-154: the modules *)

Definition no_modules : exn :=
  ClickException "No modules specified for the project".

Definition load_modules (modules_file : option string)
  : M (gmap string pyval) :=
  match modules_file with
  | Some text =>
      _modules ← lift (json_load text);
      kvs ← lift (items _modules);
      fold_each kvs ∅ (λ modules kv,
        emit (Echo ("Parsing firmware module " +:+ dq +:+ kv.1 +:+ dq +:+
                    " from modules file"));;
        m ← lift (FirmwareModule kv.2);
        mret (<[kv.1 := m]> modules))
  | None =>
      if truthy local_server_url then
        let local_server := default "" local_server_url in
        emit (DbIter FIRMWARE_MODULE);;
        ids ← lift (db_ids local_server FIRMWARE_MODULE);
        fold_each ids ∅ (λ modules _id,
          if startswith _id "_" then mret modules
          else
            emit (Echo ("Parsing firmware module " +:+ dq +:+ _id +:+ dq));;
            emit (DbGet FIRMWARE_MODULE _id);;
            doc ← lift (db_doc local_server FIRMWARE_MODULE _id);
            m ← lift (FirmwareModule doc);
            mret (<[_id := m]> modules))
      else raise no_modules
  end.

(** *** [run], lines 156-157: synthesis *)

Definition synthesize (modules : gmap string pyval)
    (module_types : gmap string module_type) : M (gmap string mod_info) :=
  emit Synthesize;;
  h ← get_heap;
  '(modules', h') ←
    lift (synthesize_firmware_module_info modules module_types h);
  put_heap h';;
  mret modules'.

(** *** [run], lines 159-172: the categories *)

(** [for c in info["categories"]: if c in categories: break], true when
    the loop ends by [break], so that the [else] branch is skipped. *)
Fixpoint breaks (categories : list string) (cs : list string) : bool :=
  match cs with
  | [] => false
  | c :: cs' =>
      if bool_decide (c ∈ categories) then true else breaks categories cs'
  end.

(** [del d[name]] on the dictionary at [l]. *)
Definition dict_del (l : loc) (name : string) : M unit :=
  h ← get_heap;
  match h !! l with
  | Some d =>
      match d !! name with
      | Some _ => put_heap (<[l := delete name d]> h)
      | None => raise KeyError
      end
  | None => raise KeyError
  end.

(** [d.items()] on the dictionary at [l]: a list of its own. *)
Definition dict_items (l : loc) : M (list (string * io_info)) :=
  h ← get_heap;
  match h !! l with
  | Some d => mret (map_to_list d)
  | None => raise KeyError
  end.

(** One of the two inner loops, on [mod_info["inputs"]] or
    [mod_info["outputs"]]. *)
Definition filter_entries (categories : list string) (l : loc) : M unit :=
  kvs ← dict_items l;
  for_each kvs (λ kv,
    if breaks categories (World.categories kv.2) then mret tt
    else dict_del l kv.1).

Definition filter_categories (categories : list string)
    (modules : gmap string mod_info) : M unit :=
  for_each (map_to_list modules) (λ kv,
    filter_entries categories (mi_inputs kv.2);;
    filter_entries categories (mi_outputs kv.2)).

(** *** [run], lines 177-202: the plugins *)

Definition not_a_plugin_path (plugin_name : string) : exn :=
  ClickException (dq +:+ plugin_name +:+ dq +:+ " is not a valid plugin path").

Definition not_a_module (plugin_module_name : string) : exn :=
  ClickException
    (dq +:+ plugin_module_name +:+ dq +:+ " does not name a Python module").

Definition no_such_class (plugin_module_name plugin_cls_name : string) : exn :=
  ClickException
    ("Module " +:+ dq +:+ plugin_module_name +:+ dq +:+
     " does not contain the class " +:+ dq +:+ plugin_cls_name +:+ dq).

(** [getattr(plugin_module, plugin_cls_name)] *)
Definition getattr (plugin_module : gmap string plugin_cls)
    (plugin_cls_name : string) : res plugin_cls :=
  match plugin_module !! plugin_cls_name with
  | Some cls => Ok cls
  | None => Raise AttributeError
  end.

(** Lines 180-201.  The three statements of the [try] block are the
    unpacking of the split name, which raises [ValueError] unless there are
    two pieces, the import and the attribute lookup; the handlers that
    format the module and class names can only run once these are bound. *)
Definition resolve_plugin (plugin_name : string) : M plugin_cls :=
  match plugin_map !! plugin_name with
  | Some cls => mret cls
  | None =>
      match split ":" plugin_name with
      | [plugin_module_name; plugin_cls_name] =>
          try_except
            (emit (Import plugin_module_name);;
             plugin_module ← lift (import_module plugin_module_name);
             lift (getattr plugin_module plugin_cls_name))
            (λ e, match e with
                  | ValueError => raise (not_a_plugin_path plugin_name)
                  | ImportError => raise (not_a_module plugin_module_name)
                  | AttributeError =>
                      raise (no_such_class plugin_module_name plugin_cls_name)
                  | _ => raise e
                  end)
      | _ => raise (not_a_plugin_path plugin_name)
      end
  end.

Definition create_plugins (plugin_names : list string)
    (modules : gmap string mod_info) : M (list plugin) :=
  fold_each plugin_names [] (λ plugins plugin_name,
    cls ← resolve_plugin plugin_name;
    h ← get_heap;
    p ← lift (new_plugin cls modules h);
    mret (plugins ++ [p])%list).

(** *** [run], lines 204-222: dependencies and the source file *)

Definition install_pio_dependencies (cg : codegen) : M unit :=
  h ← get_heap;
  for_gen (all_pio_dependencies cg h) (λ dep,
    subprocess_call ["platformio"; "lib"; "install"; dep] None;; mret tt).

Definition install_git_dependencies (lib_dir : string) (cg : codegen)
  : M unit :=
  h ← get_heap;
  for_gen (all_git_dependencies cg h) (λ dep,
    last_piece ← lift (last_item (split "/" dep));
    dep_folder_name ← lift (first_item (split "." last_piece));
    let dep_folder := path_join lib_dir dep_folder_name in
    d ← os_path_isdir dep_folder;
    if (d : bool) then
      emit (Echo ("Updating " +:+ dq +:+ dep_folder_name +:+ dq));;
      subprocess_call ["git"; "pull"] (Some dep_folder);; mret tt
    else
      emit (Echo ("Downloading " +:+ dq +:+ dep_folder_name +:+ dq));;
      subprocess_call ["git"; "clone"; dep] (Some lib_dir);; mret tt).

(** Lines 221-222: [with open(src_file_path, "w+") as f:
    codegen.write_to(f)]. *)
Definition write_source (src_dir : string) (cg : codegen) : M unit :=
  f ← open_w src_dir "src.ino";
  h ← get_heap;
  for_gen (write_to cg h) (file_write f).

(** *** [run], lines 224-230: compilation *)

Definition compile (project_dir : string) (target : option string) : M unit :=
  let command :=
    (["platformio"; "run"] ++
     (if truthy target then ["-t"; default "" target] else []))%list in
  status ← subprocess_call command (Some project_dir);
  if negb (status =? 0)%Z then raise (ClickException "Compilation failed")
  else mret tt.

(** *** [run], lines 92-230 *)

Definition not_a_project : exn :=
  ClickException
    ("Not an OpenAg firmware project. To initialize a new project " +:+
     "please use the `openag firmware init` command").

Definition src_file_path (project_dir : string) : string :=
  path_join (path_join (abspath project_dir) "src") "src.ino".

(** Lines 97-172: from the project directory to the filtered modules. *)
Definition resolve_modules (categories : list string)
    (modules_file : option string) (project_dir : string)
  : M (gmap string mod_info) :=
  let pio_config := path_join project_dir "platformio.ini" in
  initialized ← os_path_isfile pio_config;
  if negb initialized then raise not_a_project
  else
    module_types ← load_module_types project_dir;
    modules ← load_modules modules_file;
    modules ← synthesize modules module_types;
    filter_categories categories modules;;
    mret modules.

(** Lines 204-222: the generator, the dependencies and [src.ino]. *)
Definition generate (project_dir : string) (modules : gmap string mod_info)
    (plugins : list plugin) (status_update_interval : Z) : M unit :=
  let src_dir := path_join project_dir "src" in
  h ← get_heap;
  cg ← lift (CodeGen modules h plugins status_update_interval);
  install_pio_dependencies cg;;
  let lib_dir := path_join project_dir "lib" in
  install_git_dependencies lib_dir cg;;
  write_source src_dir cg.

Definition run (categories : list string) (modules_file : option string)
    (project_dir : string) (plugin_names : list string)
    (target : option string) (status_update_interval : Z) : M unit :=
  let project_dir := abspath project_dir in
  modules ← resolve_modules categories modules_file project_dir;
  plugins ← create_plugins plugin_names modules;
  generate project_dir modules plugins status_update_interval;;
  compile project_dir target.

(** *** [run_module], lines 238-314 *)

Definition read_module_type (module_json_path : string) : M module_type :=
  try_except
    (text ← read_text module_json_path;
     doc ← lift (json_load text);
     lift (FirmwareModuleType doc))
    (λ e, match e with
          | IOError => raise (ClickException "No module.json file found")
          | _ => raise e
          end).

Definition link_sources (here module_path : string) : M unit :=
  names ← os_listdir here;
  for_each names (λ file_name,
    let file_path := path_join here file_name in
    isf ← os_path_isfile file_path;
    if negb isf || startswith file_name "." then mret tt
    else
      let source := "../../../" +:+ file_name in
      let link_name := path_join module_path file_name in
      old ← os_path_isfile link_name;
      (if (old : bool) then os_remove link_name else mret tt);;
      os_symlink source module_path file_name).

(** Lines 242-273: the module type, the build directory, the project in
    it and the links to the sources. *)
Definition prepare_build (project_dir board : string) : M module_type :=
  let here := abspath project_dir in
  let module_json_path := path_join here "module.json" in
  module_type ← read_module_type module_json_path;
  let build_path := path_join here "_build" in
  b ← os_path_isdir build_path;
  (if (b : bool) then mret tt else os_mkdir here "_build");;
  init board build_path;;
  let lib_path := path_join build_path "lib" in
  let module_path := path_join lib_path "module" in
  m ← os_path_isdir module_path;
  (if (m : bool) then mret tt else os_mkdir lib_path "module");;
  link_sources here module_path;;
  mret module_type.

(** Lines 301-310: the [modules.json] of the build directory. *)
Definition write_modules_file (build_path : string)
    (real_args : list arg_val) : M string :=
  module ← lift (FirmwareModule
                   (PDict [("type", PStr "module");
                           ("arguments", PList (of_arg_val <$> real_args))]));
  let modules := PDict [("module", module)] in
  f ← open_w build_path "modules.json";
  text ← lift (json_dump modules);
  file_write f text;;
  mret f.

Definition run_module (arguments : list string) (project_dir board : string)
    (categories : list string) (plugin_names : list string)
    (target : option string) (status_update_interval : Z) : M unit :=
  let build_path := path_join (abspath project_dir) "_build" in
  module_type ← prepare_build project_dir board;
  real_args ← lift (parse_arguments arguments (mt_arguments module_type));
  modules_file ← write_modules_file build_path real_args;
  text ← read_text modules_file;
  run categories (Some text) build_path plugin_names target
      status_update_interval.

End Commands.

End Firmware.

(** ** What a run is observed to do *)

Module Events.

(** [stable R m]: whatever the world and whatever the outcome, [m] takes a
    world to one related to it by [R]. *)
Definition stable (R : relation world) {A} (m : M A) : Prop :=
  ∀ w, R w (m w).2.

(** [a] is a value that [m] can return. *)
Definition returns {A} (m : M A) (a : A) : Prop :=
  ∃ w, (m w).1 = Ok a.

(** The trace grows by events that satisfy [Q]. *)
Definition extends (Q : event → Prop) : relation world :=
  λ w w', ∃ evs, trace w' = trace w ++ evs ∧ Forall Q evs.

(** The files, directories and links are the same. *)
Definition same_fs : relation world := λ w w', fsys w' = fsys w.

(** The dictionaries are the same. *)
Definition same_heap : relation world := λ w w', heap w' = heap w.

(** The three commands of lines 210, 217 and 220 that install or update
    a dependency. *)
Definition is_dependency_install (e : event) : Prop :=
  match e with
  | Subprocess ["platformio"; "lib"; "install"; _] _ => True
  | Subprocess ["git"; "pull"] _ => True
  | Subprocess ["git"; "clone"; _] _ => True
  | _ => False
  end.

(** Opening [path] for writing, or writing to it. *)
Definition writes_to (path : string) (e : event) : Prop :=
  match e with
  | OpenWrite p => p = path
  | WriteText p _ => p = path
  | _ => False
  end.

(** Reading the database [db] of the server. *)
Definition reads_db (db : db_name) (e : event) : Prop :=
  match e with
  | DbIter d => d = db
  | DbGet d _ => d = db
  | _ => False
  end.

(** The text of pieces written one after the other. *)
Definition written (chunks : list string) : string :=
  foldr String.append "" chunks.

Definition is_echo (e : event) : Prop :=
  match e with
  | Echo _ => True
  | _ => False
  end.

Definition is_import (e : event) : Prop :=
  match e with
  | Import _ => True
  | _ => False
  end.

(** The events of each part of the commands. *)
Definition init_event (board project_dir : string) (e : event) : Prop :=
  match e with
  | Echo _ => True
  | Subprocess argv _ => argv = ["platformio"; "init"; "-b"; board]
  | OpenWrite p => p = path_join project_dir "modules.json"
  | WriteText p _ => p = path_join project_dir "modules.json"
  | _ => False
  end.

Definition prepare_event (board build_path : string) (e : event) : Prop :=
  match e with
  | Mkdir _ => True
  | Remove _ => True
  | Symlink _ _ => True
  | _ => init_event board build_path e
  end.

Definition type_loading_event (e : event) : Prop :=
  is_echo e ∨ reads_db FIRMWARE_MODULE_TYPE e.

Definition module_loading_event (modules_file : option string) (e : event)
  : Prop :=
  match modules_file with
  | Some _ => is_echo e
  | None => is_echo e ∨ reads_db FIRMWARE_MODULE e
  end.

Definition resolve_event (modules_file : option string) (e : event) : Prop :=
  type_loading_event e ∨ module_loading_event modules_file e ∨ e = Synthesize.

Definition generate_event (src_file : string) (e : event) : Prop :=
  is_echo e ∨ is_dependency_install e ∨ writes_to src_file e.

Definition compile_event (e : event) : Prop :=
  match e with
  | Subprocess ("platformio" :: "run" :: _) _ => True
  | _ => False
  end.

End Events.

Export Events.

(** ** The outcome of the loops over the categories *)

Module Categories.

Import Firmware.

(** An entry has a category that is enabled. *)
Definition enabled (categories : list string) (info : io_info) : Prop :=
  ∃ c, c ∈ World.categories info ∧ c ∈ categories.

(** The entries of a dictionary that the inner loop does not delete. *)
Definition kept (categories : list string) (d : gmap string io_info)
  : gmap string io_info :=
  filter (λ kv, breaks categories (World.categories kv.2) = true) d.

(** The dictionary after the turns of the inner loop for [kvs]. *)
Definition drop_disabled (categories : list string)
    (kvs : list (string * io_info)) (d : gmap string io_info)
  : gmap string io_info :=
  foldl (λ d kv,
           if breaks categories (World.categories kv.2) then d
           else delete kv.1 d)
        d kvs.

(** The locations of the [inputs] and [outputs] of the modules, in the
    order the outer loop visits them. *)
Definition locs_of (kvs : list (string * mod_info)) : list loc :=
  kvs ≫= λ kv, [mi_inputs kv.2; mi_outputs kv.2].

(** The heap in which the dictionaries at [ls] have lost their disabled
    entries. *)
Definition filtered_heap (categories : list string) (ls : list loc)
    (h : gmap loc (gmap string io_info)) : gmap loc (gmap string io_info) :=
  map_imap (λ l d, Some (if bool_decide (l ∈ ls) then kept categories d
                         else d)) h.

(** Every module refers to dictionaries that exist. *)
Definition well_formed (modules : gmap string mod_info)
    (h : gmap loc (gmap string io_info)) : Prop :=
  ∀ name mi, modules !! name = Some mi →
    is_Some (h !! mi_inputs mi) ∧ is_Some (h !! mi_outputs mi).

End Categories.

Export Categories.

(** ** What the [lib] folder defines *)

Module Registry.

(** The module type that the [lib] folder under [lib_path] gives to the
    name [_id] on the disk [f]: the directory, its [module.json], the
    document in it and the validated type. *)
Definition lib_defines `{Collaborators} (f : fs) (lib_path _id : string)
    (t : module_type)
  : Prop :=
  isdir f (path_join lib_path _id) = true ∧
  ∃ text doc,
    files f !! resolve f (path_join (path_join lib_path _id) "module.json")
      = Some text ∧
    json_load text = Ok doc ∧ FirmwareModuleType doc = Ok t.

End Registry.

Export Registry.

(** ** A small project to run the commands on *)

Module Demo.

(** Whole decimal numbers, as read by [int]. *)
Fixpoint digits (s : string) (acc : Z) : option Z :=
  match s with
  | EmptyString => Some acc
  | String c s' =>
      let n := nat_of_ascii c in
      if (48 <=? n) && (n <=? 57)
      then digits s' (10 * acc + Z.of_nat (n - 48))%Z
      else None
  end.

Definition decimal (s : string) : option Z :=
  match s with
  | EmptyString => None
  | String "-" EmptyString => None
  | String "-" s' => Z.opp <$> digits s' 0
  | _ => digits s 0
  end.

(** The few literals that [float] reads here. *)
Definition floating (s : string) : option float :=
  if String.eqb s "0.5" then Some 0.5%float
  else if String.eqb s "1.0" then Some 1%float
  else None.

#[export] Instance builtins : Builtins := {|
  int_of_str := decimal;
  float_of_str := floating;
|}.

(** Documents are kept in files under a name; [json.load] looks the name
    up. *)
Definition temp_sensor_doc (source : string) : pyval :=
  PDict [("source", PStr source);
         ("arguments", PList [PDict [("name", PStr "pin");
                                     ("type", PStr "int")]])].

Definition pump_doc : pyval :=
  PDict [("source", PStr "lib");
         ("arguments", PList [PDict [("name", PStr "enabled");
                                     ("type", PStr "bool")]])].

Definition load (text : string) : res pyval :=
  if String.eqb text "{}" then Ok (PDict [])
  else if String.eqb text "temp_sensor.json" then Ok (temp_sensor_doc "lib")
  else if String.eqb text "pump.json" then Ok pump_doc
  else if String.eqb text "modules.json" then
    Ok (PDict [("t1", PDict [("type", PStr "temp_sensor");
                             ("arguments", PList [PStr "7"])])])
  else Raise ValueError.

Definition dump (d : pyval) : res string :=
  match d with
  | PDict [] => Ok "{}"
  | _ => Ok "modules.json"
  end.

(** [platformio init] creates the project files; the other commands leave
    the disk as it is. *)
Definition process (argv : list string) (cwd : option string) (f : fs)
  : res (Z * fs) :=
  match argv, cwd with
  | ["platformio"; "init"; "-b"; _], Some d =>
      Ok (0%Z,
          Fs (<[path_join d "platformio.ini" := "[env]"]> (files f))
             ({[path_join d "lib"; path_join d "src"]} ∪ dirs f)
             (links f))
  | _, _ => Ok (0%Z, f)
  end.

Definition arguments_of (doc : pyval) : list arg_info :=
  match doc with
  | PDict [_; ("arguments", PList [PDict [("name", PStr n);
                                          ("type", PStr t)]])] =>
      [ArgInfo n t]
  | _ => []
  end.

(** Every module gets an empty [inputs] at location 1 and the
    [temperature] output of a sensor at location 2. *)
Definition synthesized_heap : gmap loc (gmap string io_info) :=
  {[ 1%positive := ∅;
     2%positive := {[ "temperature" := IoInfo ["sensors"] "std_msgs/Float32" ]} ]}.

Definition synthesized (modules : gmap string pyval)
  : gmap string mod_info :=
  (λ _, ModInfo 1%positive 2%positive) <$> modules.

Definition make_collaborators (url : option string) : Collaborators := {|
  abspath := id;
  run_process := process;
  json_load := load;
  json_dump := dump;
  local_server_url := url;
  db_ids := λ _ db,
    match db with
    | FIRMWARE_MODULE_TYPE => Ok ["_design/openag"; "temp_sensor"; "pump"]
    | FIRMWARE_MODULE => Ok ["t9"]
    end;
  db_doc := λ _ _ _id, Ok (temp_sensor_doc "server");
  FirmwareModuleType := λ doc,
    Ok {| mt_arguments := arguments_of doc; mt_doc := doc |};
  FirmwareModule := λ doc, Ok doc;
  synthesize_firmware_module_info := λ modules _ _,
    Ok (synthesized modules, synthesized_heap);
  plugin_cls := string;
  plugin := string;
  plugin_map := {[ "ros" := "ROSCommPlugin"; "csv" := "CSVCommPlugin" ]};
  import_module := λ name,
    if String.eqb name "my_plugins"
    then Ok {[ "Blink" := "my_plugins.Blink"; "Broken" := "my_plugins.Broken" ]}
    else Raise ImportError;
  new_plugin := λ cls _ _, Ok cls;
  codegen := list string;
  CodeGen := λ _ _ plugins _, Ok plugins;
  all_pio_dependencies := λ _ _, (["rosserial_arduino"], None);
  all_git_dependencies := λ _ _, (["https://example.com/libs/foo.git"], None);
  write_to := λ cg _,
    if bool_decide ("my_plugins.Broken" ∈ cg)
    then (["#include <a.h>"], Some (OtherError "GenerationError"))
    else (["#include <a.h>"; "void setup() {}"; "void loop() {}"], None);
|}.

(** The project with a local server, and the same without one. *)
#[export] Instance collaborators : Collaborators :=
  make_collaborators (Some "http://localhost:5984").


(** A project directory [/p] that has been initialized, with one module
    type in its [lib] folder and a source file from an earlier run; and
    two module directories, [/m] of a sensor with an [int] argument and
    [/b] of a pump with a [bool] argument. *)
Definition disk : fs :=
  Fs {[ "/p/platformio.ini" := "[env]";
        "/p/lib/temp_sensor/module.json" := "temp_sensor.json";
        "/p/src/src.ino" := "void setup() {} void loop() {}";
        "/m/module.json" := "temp_sensor.json";
        "/m/driver.cpp" := "int x;";
        "/b/module.json" := "pump.json" ]}
     {[ "/p"; "/p/lib"; "/p/lib/temp_sensor"; "/p/src"; "/m"; "/b" ]}
     ∅.

Definition start : world := MkWorld ∅ disk [].

(** The class of the built-in [csv] plugin. *)
Definition csv_plugin : @plugin_cls builtins collaborators :=
  "CSVCommPlugin"%string.

(** A generator whose plugin raises after the first piece of the source. *)
Definition broken_codegen : @codegen builtins collaborators :=
  ["my_plugins.Broken"].

(** The module [t1] after synthesis, and the world it is in. *)
Definition modules : gmap string mod_info :=
  {[ "t1" := ModInfo 1%positive 2%positive ]}.

Definition resolved : world := MkWorld synthesized_heap disk [].

(** The module types of [/m] and [/b] as [run_module] reads them. *)
Definition sensor_type : module_type :=
  {| mt_arguments := [ArgInfo "pin" "int"];
     mt_doc := temp_sensor_doc "lib" |}.

Definition pump_type : module_type :=
  {| mt_arguments := [ArgInfo "enabled" "bool"]; mt_doc := pump_doc |}.

End Demo.

(** ** What a plugin name stands for *)

Module Resolution.

(** The class that a plugin name resolves to: that of the built-in table,
    or, for a name that the table does not have, the attribute of an
    imported module that the name gives as [module:class]. *)
Definition resolves `{Collaborators} (plugin_name : string)
    (cls : plugin_cls) : Prop :=
  plugin_map !! plugin_name = Some cls ∨
  (plugin_map !! plugin_name = None ∧
   ∃ m c plugin_module,
     Py.split ":" plugin_name = [m; c] ∧
     import_module m = Ok plugin_module ∧
     plugin_module !! c = Some cls).

End Resolution.

Export Resolution.

(** ** What the server defines *)

Module Remote.

(** The document that the server at the configured address holds in [db]
    under [_id], an id of the database that does not start with an
    underscore. *)
Definition server_holds `{Collaborators} (db : db_name) (_id : string)
    (doc : pyval) : Prop :=
  Firmware.truthy local_server_url = true ∧
  startswith _id "_" = false ∧
  (∃ ids, db_ids (default "" local_server_url) db = Ok ids ∧ _id ∈ ids) ∧
  db_doc (default "" local_server_url) db _id = Ok doc.

End Remote.

Export Remote.

(** ** The order of what a run does *)

Module Order.

(** A character occurs in a string. *)
Fixpoint contains (c : ascii) (s : string) : bool :=
  match s with
  | EmptyString => false
  | String a s' => Ascii.eqb a c || contains c s'
  end.

(** The trace grows by one segment of events for each of the predicates,
    in their order; a segment may be empty. *)
Definition in_phases (phases : list (event → Prop)) : relation world :=
  λ w w', ∃ segments,
    trace w' = trace w ++ concat segments ∧
    Forall2 (λ P segment, Forall P segment) phases segments.

(** What a run does before it opens the source file: it echoes, reads the
    server, calls the synthesis, imports plugins and installs
    dependencies. *)
Definition before_source (modules_file : option string) (e : event) : Prop :=
  resolve_event modules_file e ∨ is_import e ∨ is_echo e ∨
  is_dependency_install e.

End Order.

Export Order.

(** ** What linking the sources does *)

Module Linking.

(** Removing the entry of [module_path] that has the name of one of
    [names] that does not start with a dot, or linking that entry to the
    file of the module directory, three directories up. *)
Definition link_event (names : list string) (module_path : string)
    (e : event) : Prop :=
  ∃ file_name,
    file_name ∈ names ∧ startswith file_name "." = false ∧
    (e = Remove (path_join module_path file_name) ∨
     e = Symlink ("../../../" +:+ file_name)
                 (path_join module_path file_name)).

(** No file is written or created and the directories are the same: a
    file is as it was, or it is not there any more. *)
Definition keeps_files : relation world :=
  λ w w', files (fsys w') ⊆ files (fsys w) ∧ dirs (fsys w') = dirs (fsys w).

End Linking.

Export Linking.

(** ** More of the small project *)

Module DemoMore.

Import Demo.

(** The plugin that a run of [/p] with the [csv] plugin creates, and its
    generator. *)
Definition csv_plugins : list (@plugin builtins collaborators) :=
  ["CSVCommPlugin"%string].

Definition csv_codegen : @codegen builtins collaborators :=
  ["CSVCommPlugin"%string].

(** The disk after [platformio init] in [/p]. *)
Definition disk_after_init : fs :=
  Fs (<["/p/platformio.ini" := "[env]"]> (files disk))
     ({["/p/lib"; "/p/src"]} ∪ dirs disk) (links disk).

End DemoMore.

(** ** Two other machines for the small project *)

Module DemoVariants.

Import Demo.

(** [import_module] as Python 2 has it for the names of the small
    project: the empty name is a [ValueError], a relative name without a
    package a [TypeError], and a name other than [my_plugins] an
    [ImportError]. *)
Definition import_of (name : string) : res (gmap string string) :=
  if String.eqb name "" then Raise ValueError
  else if startswith name "." then Raise TypeError
  else if String.eqb name "my_plugins"
  then Ok {[ "Blink" := "my_plugins.Blink"; "Broken" := "my_plugins.Broken" ]}
  else Raise ImportError.

(** The small project with the commands and the import given. *)
Definition variant
    (proc : list string → option string → fs → res (Z * fs))
    (imp : string → res (gmap string string)) : Collaborators := {|
  abspath := id;
  run_process := proc;
  json_load := load;
  json_dump := dump;
  local_server_url := Some "http://localhost:5984";
  db_ids := λ _ db,
    match db with
    | FIRMWARE_MODULE_TYPE => Ok ["_design/openag"; "temp_sensor"; "pump"]
    | FIRMWARE_MODULE => Ok ["t9"]
    end;
  db_doc := λ _ _ _id, Ok (temp_sensor_doc "server");
  FirmwareModuleType := λ doc,
    Ok {| mt_arguments := arguments_of doc; mt_doc := doc |};
  FirmwareModule := λ doc, Ok doc;
  synthesize_firmware_module_info := λ modules _ _,
    Ok (synthesized modules, synthesized_heap);
  plugin_cls := string;
  plugin := string;
  plugin_map := {[ "ros" := "ROSCommPlugin"; "csv" := "CSVCommPlugin" ]};
  import_module := imp;
  new_plugin := λ cls _ _, Ok cls;
  codegen := list string;
  CodeGen := λ _ _ plugins _, Ok plugins;
  all_pio_dependencies := λ _ _, (["rosserial_arduino"], None);
  all_git_dependencies := λ _ _, (["https://example.com/libs/foo.git"], None);
  write_to := λ cg _,
    (["#include <a.h>"; "void setup() {}"; "void loop() {}"], None);
|}.

(** The project when imports are those of Python 2, and the project on a
    machine without PlatformIO. *)
Definition strict_import : Collaborators := variant process import_of.

Definition no_platformio : Collaborators :=
  variant (λ _ _ _, Raise OSError) import_of.

End DemoVariants.

(** * Properties *)

(** ** The argument loop *)

Module ArgsTheory.

Section Loop.

Context `{Builtins}.

Lemma res_map_raise {A B} (f : A → res B) (pre post : list A) (x : A) (e : exn) :
  (∀ y, y ∈ pre → ∃ b, f y = Ok b) →
  f x = Raise e →
  res_map f (pre ++ x :: post) = Raise e.
Proof.
  induction pre as [|y pre IH]; intros Hpre Hx; simpl.
  - by rewrite Hx.
  - destruct (Hpre y) as [b Hb]; [left|].
    rewrite Hb; simpl. rewrite IH; [done| |done].
    intros z Hz. apply Hpre. by right.
Qed.

Lemma seq_split_at (i n : nat) :
  i < n → seq 0 n = seq 0 i ++ i :: seq (S i) (n - S i).
Proof.
  intros Hi. replace n with (i + S (n - S i)) at 1 by lia.
  by rewrite seq_app.
Qed.

(** The loop stops at the first index whose body raises. *)
Lemma parse_arguments_raise (arguments : list string)
    (declared : list arg_info) (i : nat) (e : exn) :
  i < length arguments →
  (∀ j, j < i → ∃ v, parse_argument arguments declared j = Ok v) →
  parse_argument arguments declared i = Raise e →
  parse_arguments arguments declared = Raise e.
Proof.
  intros Hi Hpre He. unfold parse_arguments.
  rewrite (seq_split_at i) by done.
  apply res_map_raise; [|done].
  intros j Hj. apply Hpre. apply list_elem_of_In, in_seq in Hj. lia.
Qed.

Lemma parse_argument_declared (arguments : list string)
    (declared : list arg_info) (i : nat) (info : arg_info) (val : string) :
  declared !! i = Some info → arguments !! i = Some val →
  parse_argument arguments declared i = coerce i (arg_type info) val.
Proof.
  intros Hd Ha. unfold parse_argument.
  apply lookup_lt_Some in Hd as Hlt.
  destruct (Nat.leb_spec (length declared) i); [lia|].
  by rewrite Ha, Hd.
Qed.

Lemma parse_argument_undeclared (arguments : list string)
    (declared : list arg_info) (i : nat) :
  length declared ≤ i →
  parse_argument arguments declared i =
  Raise (too_many_arguments (length arguments) (length declared)).
Proof.
  intros Hi. unfold parse_argument.
  by destruct (Nat.leb_spec (length declared) i); [|lia].
Qed.

Lemma length_append (s t : string) :
  String.length (s +:+ t) = String.length s + String.length t.
Proof. induction s as [|a s IH]; simpl; [done|by rewrite IH]. Qed.

Lemma append_cancel_r (s1 s2 t : string) :
  s1 +:+ t = s2 +:+ t → s1 = s2.
Proof.
  revert s2. induction s1 as [|a s1 IH]; intros [|b s2] Heq.
  - done.
  - apply (f_equal String.length) in Heq.
    rewrite !length_append in Heq. simpl in Heq. lia.
  - apply (f_equal String.length) in Heq.
    rewrite !length_append in Heq. simpl in Heq. lia.
  - simpl in Heq. injection Heq as -> Heq. f_equal. by apply IH.
Qed.

Lemma append_cancel_l (p s1 s2 : string) :
  p +:+ s1 = p +:+ s2 → s1 = s2.
Proof.
  induction p as [|a p IH]; simpl; [done|].
  intros Heq. injection Heq as Heq. by apply IH.
Qed.

(** The message of the boolean error determines the index it names. *)
Lemma not_a_boolean_inj (i j : nat) :
  not_a_boolean i = not_a_boolean j → i = j.
Proof.
  unfold not_a_boolean. intros Heq. injection Heq as Heq.
  apply append_cancel_l, append_cancel_r in Heq.
  by apply (inj pretty) in Heq.
Qed.

Lemma coerce_bad_parameter (i : nat) (type val msg : string) :
  coerce i type val = Raise (BadParameter msg) →
  type = "bool" ∧ BadParameter msg = not_a_boolean i.
Proof.
  unfold coerce, py_int, py_float.
  destruct (String.eqb_spec type "int"); [by destruct (int_of_str val)|].
  destruct (String.eqb_spec type "float"); [by destruct (float_of_str val)|].
  destruct (String.eqb_spec type "bool"); [|done].
  destruct (String.eqb (lower val) "true"); [done|].
  destruct (String.eqb (lower val) "false"); [done|].
  by intros [= <-].
Qed.

Lemma coerce_click_exception (i : nat) (type val msg : string) :
  coerce i type val ≠ Raise (ClickException msg).
Proof.
  unfold coerce, py_int, py_float.
  destruct (String.eqb type "int"); [by destruct (int_of_str val)|].
  destruct (String.eqb type "float"); [by destruct (float_of_str val)|].
  destruct (String.eqb type "bool"); [|done].
  destruct (String.eqb (lower val) "true"); [done|].
  by destruct (String.eqb (lower val) "false").
Qed.

End Loop.

End ArgsTheory.

(** ** Statements and what they leave of the world *)

Module Traces.

Section Stable.

Context (R : relation world) `{!PreOrder R}.

Lemma stable_ret {A} (a : A) : stable R (mret a).
Proof. intros w. simpl. reflexivity. Qed.

Lemma stable_raise {A} (e : exn) : stable R (@raise A e).
Proof. intros w. simpl. reflexivity. Qed.

Lemma stable_lift {A} (r : res A) : stable R (lift r).
Proof. intros w. simpl. reflexivity. Qed.

Lemma stable_get_fs : stable R get_fs.
Proof. intros w. simpl. reflexivity. Qed.

Lemma stable_get_heap : stable R get_heap.
Proof. intros w. simpl. reflexivity. Qed.

Lemma stable_bind {A B} (m : M A) (k : A → M B) :
  stable R m → (∀ a, returns m a → stable R (k a)) → stable R (m ≫= k).
Proof.
  intros Hm Hk w. unfold mbind, M_bind, bind.
  specialize (Hm w). destruct (m w) as [[a|e] w1] eqn:Hmw; simpl in *; [|done].
  etrans; [exact Hm|]. apply Hk. exists w. by rewrite Hmw.
Qed.

Lemma stable_for_each {A} (xs : list A) (body : A → M unit) :
  (∀ x, stable R (body x)) → stable R (for_each xs body).
Proof.
  intros Hbody. induction xs as [|x xs IH]; simpl.
  - apply stable_ret.
  - apply stable_bind; [apply Hbody|intros _ _; apply IH].
Qed.

Lemma stable_fold_each {A S} (xs : list A) (s : S) (body : S → A → M S) :
  (∀ s x, stable R (body s x)) → stable R (fold_each xs s body).
Proof.
  intros Hbody. revert s. induction xs as [|x xs IH]; intros s; simpl.
  - apply stable_ret.
  - apply stable_bind; [apply Hbody|intros s' _; apply IH].
Qed.

Lemma stable_fold_each_elem {A S} (xs : list A) (s : S)
    (body : S → A → M S) :
  (∀ s x, x ∈ xs → stable R (body s x)) → stable R (fold_each xs s body).
Proof.
  revert s. induction xs as [|x xs IH]; intros s Hbody; simpl.
  - apply stable_ret.
  - apply stable_bind; [apply Hbody; left|].
    intros s' _. apply IH. intros s'' y Hy. apply Hbody. by right.
Qed.

Lemma stable_for_gen {A} (gen : list A * option exn) (body : A → M unit) :
  (∀ x, stable R (body x)) → stable R (for_gen gen body).
Proof.
  intros Hbody. unfold for_gen. apply stable_bind.
  - by apply stable_for_each.
  - intros _ _. destruct (snd gen); [apply stable_raise|apply stable_ret].
Qed.

Lemma stable_try_except {A} (m : M A) (handler : exn → M A) :
  stable R m → (∀ e, stable R (handler e)) → stable R (try_except m handler).
Proof.
  intros Hm Hh w. unfold try_except.
  specialize (Hm w). destruct (m w) as [[a|e] w1]; simpl in *; [done|].
  etrans; [exact Hm|apply Hh].
Qed.

End Stable.

#[export] Instance extends_preorder (Q : event → Prop) : PreOrder (extends Q).
Proof.
  split.
  - intros w. exists []. by rewrite app_nil_r.
  - intros w1 w2 w3 (evs1 & H1 & F1) (evs2 & H2 & F2).
    exists (evs1 ++ evs2). split; [by rewrite H2, H1, app_assoc|].
    by apply Forall_app.
Qed.

#[export] Instance same_fs_preorder : PreOrder same_fs.
Proof. split; [done|]. intros w1 w2 w3 H1 H2. unfold same_fs in *. congruence. Qed.

#[export] Instance same_heap_preorder : PreOrder same_heap.
Proof. split; [done|]. intros w1 w2 w3 H1 H2. unfold same_heap in *. congruence. Qed.

Lemma extends_weaken (P Q : event → Prop) (w w' : world) :
  (∀ e, P e → Q e) → extends P w w' → extends Q w w'.
Proof.
  intros HPQ (evs & Ht & HF). exists evs. split; [done|].
  eapply Forall_impl; eauto.
Qed.

Lemma extends_mono (P Q : event → Prop) {A} (m : M A) :
  (∀ e, P e → Q e) → stable (extends P) m → stable (extends Q) m.
Proof.
  intros HPQ Hm w. destruct (Hm w) as (evs & Ht & HF).
  exists evs. split; [done|]. eapply Forall_impl; eauto.
Qed.

Lemma extends_emit (Q : event → Prop) (e : event) :
  Q e → stable (extends Q) (emit e).
Proof. intros He w. exists [e]. split; [done|]. by constructor. Qed.

Lemma extends_put_fs (Q : event → Prop) (f : fs) : stable (extends Q) (put_fs f).
Proof. intros w. exists []. simpl. by rewrite app_nil_r. Qed.

Lemma extends_put_heap (Q : event → Prop) h : stable (extends Q) (put_heap h).
Proof. intros w. exists []. simpl. by rewrite app_nil_r. Qed.

Lemma same_fs_emit (e : event) : stable same_fs (emit e).
Proof. done. Qed.

Lemma same_fs_put_heap h : stable same_fs (put_heap h).
Proof. done. Qed.

Lemma same_heap_emit (e : event) : stable same_heap (emit e).
Proof. done. Qed.

Lemma same_heap_put_fs (f : fs) : stable same_heap (put_fs f).
Proof. done. Qed.

Create HintDb stable discriminated.

#[export] Hint Resolve stable_ret stable_raise stable_lift stable_get_fs
  stable_get_heap extends_put_fs extends_put_heap same_fs_emit
  same_fs_put_heap same_heap_emit same_heap_put_fs : stable.

(** One step through a statement: a sequence, a loop, a handler or a
    branch. *)
Ltac stable_step :=
  lazymatch goal with
  | |- stable _ (_ ≫= _) =>
      apply stable_bind; try typeclasses eauto; [|intros ? ?]
  | |- stable _ (for_each _ _) =>
      apply stable_for_each; try typeclasses eauto; intros ?
  | |- stable _ (fold_each _ _ _) =>
      apply stable_fold_each; try typeclasses eauto; intros ? ?
  | |- stable _ (for_gen _ _) =>
      apply stable_for_gen; try typeclasses eauto; intros ?
  | |- stable _ (try_except _ _) =>
      apply stable_try_except; try typeclasses eauto; [|intros ?]
  | |- stable _ (match ?x with _ => _ end) => destruct x
  | |- stable (extends _) (emit _) => apply extends_emit
  end.

Ltac stable_go :=
  repeat first
    [ solve [eauto with stable typeclass_instances]
    | progress stable_step
    | progress cbv beta zeta ].

End Traces.

(** ** The events of each part of the commands *)

Module Stages.

Import Traces Firmware.

(** An implication between two descriptions of events, by the cases of the
    event. *)
Ltac by_event :=
  let e := fresh "ev" in
  intros e;
  unfold resolve_event, type_loading_event, module_loading_event,
    generate_event;
  destruct e; simpl;
  repeat match goal with
         | |- context [match ?x with Some _ => _ | None => _ end] => destruct x
         end;
  simpl; intuition (try congruence).

Section Reads.

(** Looking at the disk changes nothing. *)
Context (R : relation world) `{!PreOrder R}.

Lemma stable_isfile (p : string) : stable R (os_path_isfile p).
Proof. unfold os_path_isfile. stable_go. Qed.

Lemma stable_isdir (p : string) : stable R (os_path_isdir p).
Proof. unfold os_path_isdir. stable_go. Qed.

Lemma stable_listdir (p : string) : stable R (os_listdir p).
Proof. unfold os_listdir. stable_go. Qed.

Lemma stable_read_text (p : string) : stable R (read_text p).
Proof. unfold read_text. stable_go. Qed.

End Reads.

#[export] Hint Resolve stable_isfile stable_isdir stable_listdir
  stable_read_text : stable.

Lemma open_w_returns (dir name path : string) :
  returns (open_w dir name) path → path = path_join dir name.
Proof.
  intros [w Hw]. unfold open_w in Hw. simpl in Hw.
  unfold mbind, M_bind, bind, get_fs in Hw. simpl in Hw.
  destruct (negb (isdir (fsys w) dir) || isdir (fsys w) (path_join dir name));
    simpl in Hw; congruence.
Qed.

(** The path of a file that has been opened. *)
Ltac opened :=
  match goal with
  | Hopen : returns (open_w _ _) ?f |- _ =>
      apply open_w_returns in Hopen; subst f
  end.

Section Writes.

Context (Q : event → Prop).

Lemma open_w_events (dir name : string) :
  Q (OpenWrite (path_join dir name)) → stable (extends Q) (open_w dir name).
Proof. intros HQ. unfold open_w. stable_go. Qed.

Lemma file_write_events (path text : string) :
  Q (WriteText path text) → stable (extends Q) (file_write path text).
Proof. intros HQ. unfold file_write. stable_go. Qed.

Lemma mkdir_events (dir name : string) :
  Q (Mkdir (path_join dir name)) → stable (extends Q) (os_mkdir dir name).
Proof. intros HQ. unfold os_mkdir. stable_go. Qed.

Lemma remove_events (path : string) :
  Q (Remove path) → stable (extends Q) (os_remove path).
Proof. intros HQ. unfold os_remove. stable_go. Qed.

Lemma symlink_events (source dir name : string) :
  Q (Symlink source (path_join dir name)) →
  stable (extends Q) (os_symlink source dir name).
Proof. intros HQ. unfold os_symlink. stable_go. Qed.

End Writes.

Section Commands.

Context `{Collaborators}.

Lemma subprocess_call_events (Q : event → Prop) argv cwd :
  Q (Subprocess argv cwd) → stable (extends Q) (subprocess_call argv cwd).
Proof. intros HQ. unfold subprocess_call. stable_go. Qed.

Lemma init_events (board project_dir : string) :
  stable (extends (init_event board (abspath project_dir)))
         (init board project_dir).
Proof.
  unfold init. stable_go; try done.
  - by apply subprocess_call_events.
  - by apply open_w_events.
  - opened. by apply file_write_events.
Qed.

Lemma read_module_type_stable (R : relation world) `{!PreOrder R} path :
  stable R (read_module_type path).
Proof. unfold read_module_type. stable_go. Qed.

Lemma link_sources_events (board build_path here module_path : string) :
  stable (extends (prepare_event board build_path))
         (link_sources here module_path).
Proof.
  unfold link_sources. stable_go.
  all: first [by apply remove_events | by apply symlink_events].
Qed.

Lemma prepare_build_events (project_dir board : string) :
  stable (extends (prepare_event board
                     (abspath (path_join (abspath project_dir) "_build"))))
         (prepare_build project_dir board).
Proof.
  unfold prepare_build. stable_go.
  all: first
    [ apply read_module_type_stable; typeclasses eauto
    | by apply mkdir_events
    | apply link_sources_events
    | eapply extends_mono; [|apply init_events]; by intros [] ].
Qed.

Lemma load_server_types_events url module_types :
  stable (extends type_loading_event) (load_server_types url module_types).
Proof.
  unfold load_server_types, type_loading_event.
  stable_go; simpl; auto.
Qed.

Lemma load_server_types_same_fs url module_types :
  stable same_fs (load_server_types url module_types).
Proof. unfold load_server_types. stable_go. Qed.

Lemma load_lib_types_events project_dir module_types :
  stable (extends is_echo) (load_lib_types project_dir module_types).
Proof. unfold load_lib_types, load_lib_type. stable_go; simpl; auto. Qed.

Lemma load_module_types_events project_dir :
  stable (extends type_loading_event) (load_module_types project_dir).
Proof.
  unfold load_module_types. stable_go.
  all: first
    [ apply load_server_types_events
    | eapply extends_mono; [|apply load_lib_types_events]; by left ].
Qed.

Lemma load_modules_events modules_file :
  stable (extends (module_loading_event modules_file))
         (load_modules modules_file).
Proof.
  unfold load_modules, module_loading_event.
  destruct modules_file; stable_go; simpl; auto.
Qed.

Lemma synthesize_events modules module_types :
  stable (extends (λ e, e = Synthesize)) (synthesize modules module_types).
Proof. unfold synthesize. stable_go. Qed.

Lemma filter_categories_events (Q : event → Prop) categories modules :
  stable (extends Q) (filter_categories categories modules).
Proof.
  unfold filter_categories, filter_entries, dict_items, dict_del. stable_go.
Qed.

Lemma resolve_modules_events categories modules_file project_dir :
  stable (extends (resolve_event modules_file))
         (resolve_modules categories modules_file project_dir).
Proof.
  unfold resolve_modules, resolve_event. stable_go.
  all: first
    [ apply filter_categories_events
    | eapply extends_mono; [|apply load_module_types_events]; by left
    | eapply extends_mono; [|apply load_modules_events]; intros; right; by left
    | eapply extends_mono; [|apply synthesize_events]; intros; right; by right ].
Qed.

Lemma resolve_plugin_events plugin_name :
  stable (extends is_import) (resolve_plugin plugin_name).
Proof. unfold resolve_plugin. stable_go; simpl; auto. Qed.

Lemma create_plugins_events plugin_names modules :
  stable (extends is_import) (create_plugins plugin_names modules).
Proof.
  unfold create_plugins. stable_go. apply resolve_plugin_events.
Qed.

Lemma install_pio_dependencies_events src_file cg :
  stable (extends (generate_event src_file)) (install_pio_dependencies cg).
Proof.
  unfold install_pio_dependencies. stable_go.
  apply subprocess_call_events. right; by left.
Qed.

Lemma install_git_dependencies_events src_file lib_dir cg :
  stable (extends (generate_event src_file))
         (install_git_dependencies lib_dir cg).
Proof.
  unfold install_git_dependencies. stable_go;
    try (apply subprocess_call_events; right; by left); by left.
Qed.

Lemma write_source_events src_dir cg :
  stable (extends (generate_event (path_join src_dir "src.ino")))
         (write_source src_dir cg).
Proof.
  unfold write_source. stable_go.
  all: first
    [ apply open_w_events; right; by right
    | opened; apply file_write_events; right; by right ].
Qed.

Lemma generate_events project_dir modules plugins status_update_interval :
  stable (extends (generate_event
                     (path_join (path_join project_dir "src") "src.ino")))
         (generate project_dir modules plugins status_update_interval).
Proof.
  unfold generate. stable_go.
  all: first
    [ apply install_pio_dependencies_events
    | apply install_git_dependencies_events
    | apply write_source_events ].
Qed.

Lemma compile_events project_dir target :
  stable (extends compile_event) (compile project_dir target).
Proof.
  unfold compile. stable_go. apply subprocess_call_events.
  by destruct (truthy target).
Qed.

End Commands.

End Stages.

(** ** [run_module] and its arguments *)

Module RunModuleTheory.

Import Traces Firmware ArgsTheory Stages.

Lemma bind_ok {A B} (m : M A) (k : A → M B) (w w1 : world) (a : A) :
  m w = (Ok a, w1) → (m ≫= k) w = k a w1.
Proof. intros Hm. unfold mbind, M_bind, bind. by rewrite Hm. Qed.

Lemma bind_raise {A B} (m : M A) (k : A → M B) (w w1 : world) (e : exn) :
  m w = (Raise e, w1) → (m ≫= k) w = (Raise e, w1).
Proof. intros Hm. unfold mbind, M_bind, bind. by rewrite Hm. Qed.

Lemma last_char_append (s t : string) :
  t ≠ "" → last_char (s +:+ t) = last_char t.
Proof.
  intros Ht. induction s as [|a s IH]; simpl; [done|].
  destruct (s +:+ t) eqn:Hst; [|exact IH].
  destruct s; [by destruct t|by inversion Hst].
Qed.

(** The last character of a joined path is that of its last component. *)
Lemma last_char_path_join (a b : string) :
  b ≠ "" → last_char (path_join a b) = last_char b.
Proof.
  intros Hb. unfold path_join.
  destruct (startswith b "/"); [done|].
  destruct (_ || _); [by apply last_char_append|].
  rewrite last_char_append; [by apply last_char_append|].
  by destruct b.
Qed.

Lemma modules_json_not_src_ino (a b : string) :
  path_join a "modules.json" ≠ path_join b "src.ino".
Proof.
  intros Heq. apply (f_equal last_char) in Heq.
  by rewrite !last_char_path_join in Heq.
Qed.

(** Either every index below [n] goes through the loop body, or there is a
    first index below [n] at which it raises. *)
Lemma first_failure {B} (f : nat → res B) (n : nat) :
  (∀ j, j < n → ∃ v, f j = Ok v) ∨
  (∃ i e, i < n ∧ f i = Raise e ∧ ∀ j, j < i → ∃ v, f j = Ok v).
Proof.
  induction n as [|n [IH|(i & e & Hi & He & Hpre)]].
  - left. intros j Hj. lia.
  - destruct (f n) as [v|e] eqn:Hn.
    + left. intros j Hj. destruct (decide (j = n)) as [->|]; [eauto|].
      apply IH. lia.
    + right. exists n, e. split; [lia|]. split; [done|]. intros j Hj. by apply IH.
  - right. exists i, e. split; [lia|]. done.
Qed.

Lemma bind_returned {A B} (m : M A) (k : A → M B) (w w' : world) (b : B) :
  (m ≫= k) w = (Ok b, w') →
  ∃ a w1, m w = (Ok a, w1) ∧ k a w1 = (Ok b, w').
Proof.
  unfold mbind, M_bind, bind. destruct (m w) as [[a|e] w1]; [eauto|done].
Qed.

Section RunModule.

Context `{Collaborators}.

(** An exception of the argument loop leaves [run_module] as it is, once
    the build directory is prepared. *)
Lemma run_module_parse_failure arguments project_dir board categories
    plugin_names target status_update_interval w mt w1 e :
  prepare_build project_dir board w = (Ok mt, w1) →
  parse_arguments arguments (mt_arguments mt) = Raise e →
  run_module arguments project_dir board categories plugin_names target
    status_update_interval w = (Raise e, w1).
Proof.
  intros Hprep Hparse. unfold run_module.
  erewrite bind_ok by exact Hprep.
  apply bind_raise. unfold lift. by rewrite Hparse.
Qed.

(** What [prepare_build] does is neither the installation of a dependency
    nor a write to a [src.ino]. *)
Lemma prepare_build_harmless project_dir board w :
  extends (λ ev, ¬ is_dependency_install ev ∧
                 ∀ dir, ¬ writes_to (path_join dir "src.ino") ev)
          w (prepare_build project_dir board w).2.
Proof.
  eapply extends_mono; [|apply prepare_build_events].
  intros [msg|db|db _id| |name|argv cwd|path|path text|path|path|src link] Hev;
    simpl in *; try done; try tauto.
  - subst argv. tauto.
  - subst path. split; [tauto|]. intros dir. apply modules_json_not_src_ino.
  - subst path. split; [tauto|]. intros dir. apply modules_json_not_src_ino.
Qed.

(** A failure before the plugins are created (no project, a module type
    or a module that does not validate, a synthesis that raises) is the
    failure of [run], and up to it [run] has only echoed, read the server
    and called the synthesis. *)
Lemma run_resolve_failure categories modules_file project_dir plugin_names
    target status_update_interval w e w1 :
  resolve_modules categories modules_file (abspath project_dir) w
    = (Raise e, w1) →
  run categories modules_file project_dir plugin_names target
      status_update_interval w = (Raise e, w1) ∧
  extends (λ ev, ¬ is_dependency_install ev ∧ ∀ path, ¬ writes_to path ev)
          w w1.
Proof.
  intros Hres. split.
  - unfold run. by apply bind_raise.
  - pose proof (resolve_modules_events categories modules_file
                  (abspath project_dir) w) as Hev.
    rewrite Hres in Hev. eapply extends_weaken; [|exact Hev]. by_event.
Qed.

(** C4.  In [run_module], for an argument declared [bool]: the strings
    [true], [TRUE] and [True] are [true] in lower case, and a value that is
    [true] in lower case is coerced to the boolean true; a value that in
    lower case is neither [true] nor [false] makes the command fail with
    click's [BadParameter], whose message names the position of the
    argument (the message determines the position).  The arguments before
    it are supposed to go through the loop. *)
Theorem bool_argument_coercion arguments project_dir board categories
    plugin_names target status_update_interval w mt w1 i info val :
  prepare_build project_dir board w = (Ok mt, w1) →
  mt_arguments mt !! i = Some info →
  arg_type info = "bool" →
  arguments !! i = Some val →
  (∀ j, j < i → ∃ v, parse_argument arguments (mt_arguments mt) j = Ok v) →
  lower "true" = "true" ∧ lower "TRUE" = "true" ∧ lower "True" = "true" ∧
  (lower val = "true" →
   parse_argument arguments (mt_arguments mt) i = Ok (VBool true)) ∧
  (lower val ≠ "true" → lower val ≠ "false" →
   run_module arguments project_dir board categories plugin_names target
     status_update_interval w = (Raise (not_a_boolean i), w1)) ∧
  (∀ j, not_a_boolean j = not_a_boolean i → j = i).
Proof.
  intros Hprep Hinfo Htype Hval Hpre.
  pose proof (parse_argument_declared _ _ _ _ _ Hinfo Hval) as Hbody.
  rewrite Htype in Hbody. unfold coerce in Hbody. simpl in Hbody.
  repeat split; try done.
  - intros Htrue. by rewrite Hbody, Htrue.
  - intros Hnt Hnf. eapply run_module_parse_failure; [done|].
    apply (parse_arguments_raise _ _ i); [by eapply lookup_lt_Some|done|].
    rewrite Hbody.
    destruct (String.eqb_spec (lower val) "true"); [done|].
    by destruct (String.eqb_spec (lower val) "false").
  - intros j Hj. by apply not_a_boolean_inj.
Qed.

(** C9.  In [run_module], an argument declared [int] or [float] whose
    string [int] or [float] rejects makes the command fail with the
    [ValueError] of the conversion, which is neither click's
    [ClickException] nor its [BadParameter]; the coercion raises
    [BadParameter] for an argument declared [bool] only, and never a
    [ClickException].  The arguments before it are supposed to go through
    the loop. *)
Theorem numeric_conversion_error arguments project_dir board categories
    plugin_names target status_update_interval w mt w1 i info val :
  prepare_build project_dir board w = (Ok mt, w1) →
  mt_arguments mt !! i = Some info →
  arguments !! i = Some val →
  (∀ j, j < i → ∃ v, parse_argument arguments (mt_arguments mt) j = Ok v) →
  (arg_type info = "int" ∧ int_of_str val = None) ∨
  (arg_type info = "float" ∧ float_of_str val = None) →
  run_module arguments project_dir board categories plugin_names target
    status_update_interval w = (Raise ValueError, w1) ∧
  (∀ k type v msg,
     coerce k type v = Raise (BadParameter msg) →
     type = "bool" ∧ BadParameter msg = not_a_boolean k) ∧
  (∀ k type v msg, coerce k type v ≠ Raise (ClickException msg)).
Proof.
  intros Hprep Hinfo Hval Hpre Hbad. split; [|split].
  - eapply run_module_parse_failure; [done|].
    apply (parse_arguments_raise _ _ i); [by eapply lookup_lt_Some|done|].
    rewrite (parse_argument_declared _ _ _ _ _ Hinfo Hval).
    unfold coerce, py_int, py_float.
    destruct Hbad as [[-> ->]|[-> ->]]; done.
  - apply coerce_bad_parameter.
  - apply coerce_click_exception.
Qed.

(** The module type that [prepare_build] returns is the one it has read
    first. *)
Lemma prepare_build_type project_dir board w mt w1 :
  prepare_build project_dir board w = (Ok mt, w1) →
  (read_module_type (path_join (abspath project_dir) "module.json") w).1
  = Ok mt.
Proof.
  unfold prepare_build. intros Hrun.
  apply bind_returned in Hrun as (mt0 & w0 & Hread & Hrun).
  rewrite Hread. simpl.
  apply bind_returned in Hrun as (b & w2 & _ & Hrun).
  apply bind_returned in Hrun as ([] & w3 & _ & Hrun).
  apply bind_returned in Hrun as ([] & w4 & _ & Hrun).
  apply bind_returned in Hrun as (m & w5 & _ & Hrun).
  apply bind_returned in Hrun as ([] & w6 & _ & Hrun).
  apply bind_returned in Hrun as ([] & w7 & _ & Hrun).
  by injection Hrun as <- _.
Qed.

Lemma run_module_prepare_failure arguments project_dir board categories
    plugin_names target status_update_interval w e w1 :
  prepare_build project_dir board w = (Raise e, w1) →
  run_module arguments project_dir board categories plugin_names target
    status_update_interval w = (Raise e, w1).
Proof. intros Hprep. unfold run_module. by apply bind_raise. Qed.

(** C5, as the code has it.  When [run_module] is given more arguments
    than the module type of [module.json] declares, it fails, and nothing
    of what it has done up to the failure is the installation of a
    dependency or a write to a [src.ino].  The failure is that of the
    preparation of the build (the build directory, [init], the links) when
    the preparation fails.  Otherwise the command fails at the first
    position whose turn of the loop raises, with the world as the
    preparation left it: the exception is the argument-count
    [ClickException] when every declared position is coerced, and the one
    raised at the first declared position that is not otherwise.  In
    [run], where the arguments of the modules are bound by the synthesis,
    an exception of the synthesis, as any before the plugins, is the
    failure of the run, before any installation and any write. *)
Theorem too_many_arguments_abort arguments project_dir board categories
    plugin_names target status_update_interval w mt :
  (read_module_type (path_join (abspath project_dir) "module.json") w).1
    = Ok mt →
  length (mt_arguments mt) < length arguments →
  ∃ e w1,
    run_module arguments project_dir board categories plugin_names target
      status_update_interval w = (Raise e, w1) ∧
    extends (λ ev, ¬ is_dependency_install ev ∧
                   ∀ dir, ¬ writes_to (path_join dir "src.ino") ev) w w1 ∧
    (prepare_build project_dir board w = (Raise e, w1) ∨
     prepare_build project_dir board w = (Ok mt, w1) ∧
     ∃ i,
       i ≤ length (mt_arguments mt) ∧
       parse_argument arguments (mt_arguments mt) i = Raise e ∧
       (∀ j, j < i →
             ∃ v, parse_argument arguments (mt_arguments mt) j = Ok v) ∧
       ((∀ j, j < length (mt_arguments mt) →
              ∃ v, parse_argument arguments (mt_arguments mt) j = Ok v) →
        e = too_many_arguments (length arguments)
                               (length (mt_arguments mt)))) ∧
    (∀ modules_file w0 e' w2,
       resolve_modules categories modules_file (abspath project_dir) w0
         = (Raise e', w2) →
       run categories modules_file project_dir plugin_names target
           status_update_interval w0 = (Raise e', w2) ∧
       extends (λ ev, ¬ is_dependency_install ev ∧
                      ∀ path, ¬ writes_to path ev) w0 w2).
Proof.
  intros Hread Hlen.
  assert (∀ modules_file w0 e' w2,
            resolve_modules categories modules_file (abspath project_dir) w0
              = (Raise e', w2) →
            run categories modules_file project_dir plugin_names target
                status_update_interval w0 = (Raise e', w2) ∧
            extends (λ ev, ¬ is_dependency_install ev ∧
                           ∀ path, ¬ writes_to path ev) w0 w2) as Hrun
    by (intros; by apply run_resolve_failure).
  pose proof (prepare_build_harmless project_dir board w) as Hharmless.
  destruct (prepare_build project_dir board w) as [[mt'|e0] w1] eqn:Hprep;
    simpl in Hharmless.
  - apply prepare_build_type in Hprep as Htype.
    rewrite Hread in Htype. injection Htype as <-.
    set (declared := mt_arguments mt) in *.
    destruct (first_failure (parse_argument arguments declared)
                (length declared)) as [Hall|(i & e & Hi & He & Hpre)].
    + exists (too_many_arguments (length arguments) (length declared)), w1.
      pose proof (parse_argument_undeclared arguments declared
                    (length declared) (le_n _)) as Hcount.
      split_and!; try done.
      * eapply run_module_parse_failure; [done|].
        by apply (parse_arguments_raise _ _ (length declared)).
      * right. split; [done|]. exists (length declared). by split_and!.
    + exists e, w1. split_and!; try done.
      * eapply run_module_parse_failure; [done|].
        apply (parse_arguments_raise _ _ i); [lia|done|done].
      * right. split; [done|]. exists i. split_and!; try done; [lia|].
        intros Hall. destruct (Hall i Hi) as [v Hv]. congruence.
  - exists e0, w1. split_and!; try done; [|by left].
    by apply run_module_prepare_failure.
Qed.

End RunModule.

End RunModuleTheory.
(** ** The arguments of the modules of the small project *)

Module RunModuleExamples.

Import Firmware RunModuleTheory Demo DemoVariants.

(** The pump of [/b] given the argument [maybe], and given [TRUE]. *)
Lemma bool_argument_coercion_witness :
  (run_module ["maybe"] "/b" "uno" ["sensors"] [] None 5 start).1 =
    Raise (not_a_boolean 0) ∧
  parse_argument ["TRUE"] (mt_arguments pump_type) 0 = Ok (VBool true).
Proof.
  split.
  - pose proof (bool_argument_coercion ["maybe"] "/b" "uno" ["sensors"] []
                  None 5 start pump_type (prepare_build "/b" "uno" start).2
                  0 (ArgInfo "enabled" "bool") "maybe") as Hthm.
    destruct Hthm as (_ & _ & _ & _ & Hfail & _).
    + vm_compute. reflexivity.
    + reflexivity.
    + reflexivity.
    + reflexivity.
    + intros j Hj. lia.
    + rewrite Hfail.
      * reflexivity.
      * vm_compute. discriminate.
      * vm_compute. discriminate.
  - pose proof (bool_argument_coercion ["TRUE"] "/b" "uno" ["sensors"] []
                  None 5 start pump_type (prepare_build "/b" "uno" start).2
                  0 (ArgInfo "enabled" "bool") "TRUE") as Hthm.
    destruct Hthm as (_ & _ & _ & Hok & _).
    + vm_compute. reflexivity.
    + reflexivity.
    + reflexivity.
    + reflexivity.
    + intros j Hj. lia.
    + apply Hok. reflexivity.
Defined.

(** The sensor of [/m], whose argument is an [int], given [x]. *)
Lemma numeric_conversion_error_witness :
  (run_module ["x"] "/m" "uno" ["sensors"] [] None 5 start).1 =
    Raise ValueError.
Proof.
  pose proof (numeric_conversion_error ["x"] "/m" "uno" ["sensors"] []
                None 5 start sensor_type (prepare_build "/m" "uno" start).2
                0 (ArgInfo "pin" "int") "x") as Hthm.
  destruct Hthm as (Hfail & _).
  - vm_compute. reflexivity.
  - reflexivity.
  - reflexivity.
  - intros j Hj. lia.
  - left. split; reflexivity.
  - rewrite Hfail. reflexivity.
Defined.

(** The sensor of [/m], which declares one argument, given two. *)
Lemma too_many_arguments_abort_witness :
  ∃ e, (run_module ["7"; "8"] "/m" "uno" ["sensors"] [] None 5 start).1 =
         Raise e ∧
       e = too_many_arguments 2 1.
Proof.
  destruct (too_many_arguments_abort ["7"; "8"] "/m" "uno" ["sensors"]
              [] None 5 start sensor_type)
    as (e & w1 & Hfail & _ & [Hprep|(_ & i & _ & _ & _ & Hcount)] & _).
  - vm_compute. reflexivity.
  - simpl. lia.
  - exfalso. apply (f_equal fst) in Hprep. vm_compute in Hprep.
    discriminate Hprep.
  - exists e. split.
    + rewrite Hfail. reflexivity.
    + apply Hcount. intros j Hj. simpl in Hj.
      assert (j = 0) as -> by lia. exists (VInt 7). reflexivity.
Defined.

(** Without PlatformIO the sensor of [/m], given two arguments against
    the one it declares, fails with the error of [init]. *)
Example too_many_arguments_without_platformio :
  (@run_module builtins no_platformio ["7"; "8"] "/m" "uno" ["sensors"] []
     None 5 start).1 = Raise (RuntimeError "PlatformIO is not installed").
Proof. vm_compute. reflexivity. Qed.

(** C5 as stated fails: the sensor of [/m] declares one argument and is
    given two, of which the first is no integer; the command fails with the
    [ValueError] of the conversion and not with the argument-count
    error. *)
Lemma too_many_arguments_counterexample :
  prepare_build "/m" "uno" start =
    (Ok sensor_type, (prepare_build "/m" "uno" start).2) ∧
  length (mt_arguments sensor_type) < length ["x"; "8"] ∧
  (run_module ["x"; "8"] "/m" "uno" ["sensors"] [] None 5 start).1 =
    Raise ValueError ∧
  Raise ValueError ≠
    Raise (A := unit)
      (too_many_arguments (length ["x"; "8"])
                          (length (mt_arguments sensor_type))).
Proof.
  split; [vm_compute; reflexivity|].
  split; [simpl; lia|].
  split; [vm_compute; reflexivity|].
  discriminate.
Qed.

End RunModuleExamples.

(** ** The loops over the categories *)

Module FilterTheory.

Import Traces Firmware RunModuleTheory.

Lemma breaks_enabled (categories cs : list string) :
  breaks categories cs = true ↔ ∃ c, c ∈ cs ∧ c ∈ categories.
Proof.
  induction cs as [|c cs IH]; simpl.
  - split; [done|]. intros (c & Hc & _). by apply elem_of_nil in Hc.
  - case_bool_decide as Hc.
    + split; [|done]. intros _. exists c. split; [left|done].
    + rewrite IH. split.
      * intros (c' & Hc' & Hin). exists c'. split; [by right|done].
      * intros (c' & Hc' & Hin). apply elem_of_cons in Hc' as [->|Hc']; [done|].
        by exists c'.
Qed.

Lemma kept_lookup (categories : list string) (d : gmap string io_info)
    (entry : string) (info : io_info) :
  kept categories d !! entry = Some info ↔
  d !! entry = Some info ∧ enabled categories info.
Proof.
  unfold kept, enabled. rewrite map_lookup_filter_Some. simpl.
  by rewrite breaks_enabled.
Qed.

Lemma kept_idemp (categories : list string) (d : gmap string io_info) :
  kept categories (kept categories d) = kept categories d.
Proof.
  apply map_filter_id. intros entry info Hin.
  by apply map_lookup_filter_Some in Hin as [_ ?].
Qed.

Lemma set_heap_same (w : world) : set_heap (heap w) w = w.
Proof. by destruct w. Qed.

Lemma drop_disabled_lookup_ne (categories : list string)
    (kvs : list (string * io_info)) (d : gmap string io_info) (k : string) :
  (∀ v, (k, v) ∈ kvs → breaks categories (World.categories v) = true) →
  drop_disabled categories kvs d !! k = d !! k.
Proof.
  revert d. induction kvs as [|[k' v'] kvs IH]; intros d Hk; simpl; [done|].
  rewrite IH by (intros v Hv; apply Hk; by right).
  destruct (breaks categories (World.categories v')) eqn:Hb; [done|].
  simpl. apply lookup_delete_ne. intros ->.
  specialize (Hk v'). rewrite Hb in Hk. discriminate Hk. left.
Qed.

Lemma drop_disabled_lookup_None (categories : list string)
    (kvs : list (string * io_info)) (d : gmap string io_info) (k : string) :
  d !! k = None → drop_disabled categories kvs d !! k = None.
Proof.
  revert d. induction kvs as [|[k' v'] kvs IH]; intros d Hk; simpl; [done|].
  apply IH. destruct (breaks _ _); [done|]. simpl.
  rewrite lookup_delete. by case_decide.
Qed.

Lemma drop_disabled_lookup_eq (categories : list string)
    (kvs : list (string * io_info)) (d : gmap string io_info)
    (k : string) (v : io_info) :
  (k, v) ∈ kvs → breaks categories (World.categories v) = false →
  drop_disabled categories kvs d !! k = None.
Proof.
  revert d. induction kvs as [|[k' v'] kvs IH]; intros d Hin Hb; simpl.
  - by apply elem_of_nil in Hin.
  - apply elem_of_cons in Hin as [[= <- <-]|Hin]; [|by apply IH].
    rewrite Hb. simpl. apply drop_disabled_lookup_None, lookup_delete_eq.
Qed.

(** The inner loop over the list of a dictionary's own items deletes the
    entries without an enabled category and no other. *)
Lemma drop_disabled_items (categories : list string)
    (d : gmap string io_info) :
  drop_disabled categories (map_to_list d) d = kept categories d.
Proof.
  apply map_eq. intros k. apply option_eq. intros v.
  rewrite kept_lookup. unfold enabled. rewrite <- breaks_enabled. split.
  - intros Hk.
    destruct (d !! k) as [v'|] eqn:Hd;
      [|by rewrite drop_disabled_lookup_None in Hk].
    destruct (breaks categories (World.categories v')) eqn:Hb.
    + rewrite drop_disabled_lookup_ne in Hk.
      * rewrite Hd in Hk. injection Hk as <-. done.
      * intros v'' Hv''. apply elem_of_map_to_list in Hv''. congruence.
    + rewrite (drop_disabled_lookup_eq _ _ _ k v') in Hk; [done| |done].
      by apply elem_of_map_to_list.
  - intros [Hd Hb]. rewrite drop_disabled_lookup_ne; [done|].
    intros v' Hv'. apply elem_of_map_to_list in Hv'. congruence.
Qed.

Lemma set_heap_set_heap h h' (w : world) :
  set_heap h (set_heap h' w) = set_heap h w.
Proof. done. Qed.

(** The inner loop, turn by turn: no [del] fails, since the items are
    those of the dictionary and no key comes twice. *)
Lemma inner_loop (categories : list string) (l : loc)
    (kvs : list (string * io_info)) (d : gmap string io_info) (w : world) :
  heap w !! l = Some d →
  (∀ k v, (k, v) ∈ kvs → d !! k = Some v) →
  NoDup kvs.*1 →
  for_each kvs (λ kv,
    if breaks categories (World.categories kv.2) then mret tt
    else dict_del l kv.1) w =
  (Ok tt, set_heap (<[l := drop_disabled categories kvs d]> (heap w)) w).
Proof.
  revert d w. induction kvs as [|[k v] kvs IH]; intros d w Hl Hin Hnd; simpl.
  - by rewrite insert_id, set_heap_same.
  - rewrite fmap_cons in Hnd. apply NoDup_cons in Hnd as [Hk Hnd].
    destruct (breaks categories (World.categories v)) eqn:Hb.
    + unfold bind. simpl. apply IH; [done| |done].
      intros k' v' Hin'. apply Hin. by right.
    + unfold bind, dict_del. simpl.
      unfold mbind, M_bind, bind, get_heap. simpl. rewrite Hl.
      rewrite (Hin k v) by left. simpl.
      rewrite (IH (delete k d)); [| | |done].
      * unfold set_heap. simpl. by rewrite insert_insert_eq.
      * simpl. apply lookup_insert_eq.
      * intros k' v' Hin'. rewrite lookup_delete_ne; [apply Hin; by right|].
        intros ->. apply Hk. apply list_elem_of_fmap. by exists (k', v').
Qed.

Lemma filter_entries_spec (categories : list string) (l : loc)
    (d : gmap string io_info) (w : world) :
  heap w !! l = Some d →
  filter_entries categories l w =
  (Ok tt, set_heap (<[l := kept categories d]> (heap w)) w).
Proof.
  intros Hl. unfold filter_entries, dict_items.
  unfold mbind at 1, M_bind, bind. simpl.
  unfold mbind, M_bind, bind, get_heap. simpl. rewrite Hl. simpl.
  rewrite (inner_loop _ _ _ d); [by rewrite drop_disabled_items|done| |].
  - intros k v Hin. by apply elem_of_map_to_list.
  - apply NoDup_fst_map_to_list.
Qed.

Lemma filtered_heap_lookup (categories : list string) (ls : list loc)
    (h : gmap loc (gmap string io_info)) (l : loc) :
  filtered_heap categories ls h !! l =
  (λ d, if bool_decide (l ∈ ls) then kept categories d else d) <$> h !! l.
Proof.
  unfold filtered_heap. rewrite map_lookup_imap. by destruct (h !! l).
Qed.

Lemma filtered_heap_nil (categories : list string)
    (h : gmap loc (gmap string io_info)) :
  filtered_heap categories [] h = h.
Proof.
  apply map_eq. intros l. rewrite filtered_heap_lookup.
  destruct (h !! l) as [d|]; [|done].
  change (Some (if bool_decide (l ∈ []) then kept categories d else d) = Some d).
  case_bool_decide as Hl; [by apply elem_of_nil in Hl|done].
Qed.

(** One inner loop takes the heap filtered at [ls] to the heap filtered at
    [ls] and [l], whether or not [l] was among [ls]. *)
Lemma filter_entries_step (categories : list string) (ls : list loc) (l : loc)
    (h : gmap loc (gmap string io_info)) (w : world) :
  heap w = filtered_heap categories ls h →
  is_Some (h !! l) →
  filter_entries categories l w =
  (Ok tt, set_heap (filtered_heap categories (ls ++ [l]) h) w).
Proof.
  intros Hw [d Hd].
  rewrite (filter_entries_spec _ _
             (if bool_decide (l ∈ ls) then kept categories d else d)).
  - f_equal. f_equal. apply map_eq. intros l'. rewrite Hw.
    destruct (decide (l' = l)) as [->|Hne].
    + rewrite lookup_insert_eq, filtered_heap_lookup, Hd. simpl.
      rewrite (bool_decide_eq_true_2 (l ∈ ls ++ [l]))
        by (apply elem_of_app; right; left).
      case_bool_decide; [by rewrite kept_idemp|done].
    + rewrite lookup_insert_ne by done. rewrite !filtered_heap_lookup.
      destruct (h !! l'); simpl; [|done]. f_equal.
      rewrite (bool_decide_ext (l' ∈ ls ++ [l]) (l' ∈ ls)); [done|].
      rewrite elem_of_app, list_elem_of_singleton. tauto.
  - by rewrite Hw, filtered_heap_lookup, Hd.
Qed.

Lemma outer_loop (categories : list string) (kvs : list (string * mod_info))
    (ls : list loc) (h : gmap loc (gmap string io_info)) (w : world) :
  heap w = filtered_heap categories ls h →
  (∀ l, l ∈ locs_of kvs → is_Some (h !! l)) →
  for_each kvs (λ kv,
    filter_entries categories (mi_inputs kv.2);;
    filter_entries categories (mi_outputs kv.2)) w =
  (Ok tt, set_heap (filtered_heap categories (ls ++ locs_of kvs) h) w).
Proof.
  revert ls w. induction kvs as [|[name mi] kvs IH]; intros ls w Hw Hwf; simpl.
  - unfold locs_of. simpl. by rewrite app_nil_r, <- Hw, set_heap_same.
  - unfold bind. unfold mbind, M_bind, bind. simpl.
    rewrite (filter_entries_step _ ls _ h) by
      (try done; apply Hwf; left).
    rewrite (filter_entries_step _ (ls ++ [mi_inputs mi]) _ h) by
      (try done; apply Hwf; right; left).
    rewrite (IH ((ls ++ [mi_inputs mi]) ++ [mi_outputs mi])).
    + rewrite !set_heap_set_heap. unfold locs_of. simpl.
      by rewrite <- !app_assoc.
    + done.
    + intros l Hl. apply Hwf. unfold locs_of in *. simpl. by do 2 right.
Qed.

Lemma elem_of_locs_of (modules : gmap string mod_info) (l : loc) :
  l ∈ locs_of (map_to_list modules) ↔
  ∃ name mi, modules !! name = Some mi ∧
             (l = mi_inputs mi ∨ l = mi_outputs mi).
Proof.
  unfold locs_of. rewrite list_elem_of_bind. split.
  - intros ([name mi] & Hl & Hin). apply elem_of_map_to_list in Hin.
    exists name, mi. split; [done|]. simpl in Hl.
    apply elem_of_cons in Hl as [->|Hl]; [by left|].
    apply list_elem_of_singleton in Hl. by right.
  - intros (name & mi & Hin & Hl). exists (name, mi).
    split; [|by apply elem_of_map_to_list]. simpl.
    destruct Hl as [->| ->]; [left|right; left].
Qed.

(** The two loops of lines 160-172 end without an exception and leave the
    heap filtered at the dictionaries of the modules. *)
Lemma filter_categories_spec (categories : list string)
    (modules : gmap string mod_info) (w : world) :
  well_formed modules (heap w) →
  filter_categories categories modules w =
  (Ok tt,
   set_heap (filtered_heap categories (locs_of (map_to_list modules)) (heap w))
            w).
Proof.
  intros Hwf. unfold filter_categories.
  rewrite (outer_loop _ _ [] (heap w)); [done|by rewrite filtered_heap_nil|].
  intros l Hl. apply elem_of_locs_of in Hl as (name & mi & Hin & [->| ->]);
    by apply (Hwf name mi).
Qed.

(** C3.  For a module of the resolved set and an entry of its inputs or
    of its outputs: after the loops of lines 160-172 the entry is present
    exactly when one of its declared categories is among the enabled ones;
    an entry that declares no category is dropped.  The loops end without
    an exception. *)
Theorem capability_filter_retains_enabled (categories : list string)
    (modules : gmap string mod_info) (w : world) (name : string)
    (mi : mod_info) (l : loc) (d : gmap string io_info) :
  well_formed modules (heap w) →
  modules !! name = Some mi →
  l = mi_inputs mi ∨ l = mi_outputs mi →
  heap w !! l = Some d →
  ∃ w' d',
    filter_categories categories modules w = (Ok tt, w') ∧
    heap w' !! l = Some d' ∧
    (∀ entry info,
       d' !! entry = Some info ↔
       d !! entry = Some info ∧
       ∃ c, c ∈ World.categories info ∧ c ∈ categories) ∧
    (∀ entry info,
       d !! entry = Some info → World.categories info = [] →
       d' !! entry = None).
Proof.
  intros Hwf Hmi Hl Hd.
  eexists _, (kept categories d).
  split; [by apply filter_categories_spec|]. simpl.
  split; [|split].
  - rewrite filtered_heap_lookup, Hd. simpl.
    rewrite bool_decide_eq_true_2; [done|].
    apply elem_of_locs_of. eauto.
  - intros entry info. apply kept_lookup.
  - intros entry info Hin Hnone.
    destruct (kept categories d !! entry) as [info'|] eqn:Hk; [|done].
    apply kept_lookup in Hk as [Hin' (c & Hc & _)].
    rewrite Hin in Hin'. injection Hin' as <-.
    rewrite Hnone in Hc. by apply elem_of_nil in Hc.
Qed.

(** C1, as the code has it.  The loops of lines 160-172 work in place and
    return nothing: each dictionary of inputs or outputs of a module is
    left with the entries that have an enabled category, so it is changed
    whenever it had another entry; the dictionaries that belong to no
    module, the files and the trace are as before. *)
Theorem capability_filter_in_place (categories : list string)
    (modules : gmap string mod_info) (w : world) :
  well_formed modules (heap w) →
  ∃ w',
    filter_categories categories modules w = (Ok tt, w') ∧
    fsys w' = fsys w ∧ trace w' = trace w ∧
    (∀ name mi l d,
       modules !! name = Some mi →
       l = mi_inputs mi ∨ l = mi_outputs mi →
       heap w !! l = Some d →
       heap w' !! l = Some (kept categories d) ∧
       (kept categories d = d ↔
        ∀ entry info, d !! entry = Some info → enabled categories info)) ∧
    (∀ l,
       (∀ name mi, modules !! name = Some mi →
                   l ≠ mi_inputs mi ∧ l ≠ mi_outputs mi) →
       heap w' !! l = heap w !! l).
Proof.
  intros Hwf. eexists.
  split; [by apply filter_categories_spec|]. simpl.
  split; [done|]. split; [done|]. split.
  - intros name mi l d Hmi Hl Hd. split.
    + rewrite filtered_heap_lookup, Hd. simpl.
      rewrite bool_decide_eq_true_2; [done|].
      apply elem_of_locs_of. eauto.
    + split.
      * intros Heq entry info Hin. rewrite <- Heq in Hin.
        by apply kept_lookup in Hin as [_ ?].
      * intros Hall. apply map_filter_id. intros entry info Hin. simpl.
        apply breaks_enabled. by apply (Hall entry).
  - intros l Hl. rewrite filtered_heap_lookup.
    destruct (heap w !! l) as [d|]; [|done]. simpl.
    rewrite bool_decide_eq_false_2; [done|].
    intros (name & mi & Hmi & Hor)%elem_of_locs_of.
    destruct (Hl name mi Hmi). by destruct Hor.
Qed.

End FilterTheory.

(** ** The sensor of the small project and the categories *)

Module FilterExamples.

Import Firmware FilterTheory Demo.

Lemma demo_well_formed : well_formed modules (heap resolved).
Proof.
  intros name mi Hmi. unfold modules in Hmi.
  apply lookup_singleton_Some in Hmi as [_ <-].
  split; eexists; reflexivity.
Defined.

(** The [temperature] output of [t1] is a sensor: with the actuators
    enabled it is dropped, and the outputs of [t1] are left empty. *)
Lemma capability_filter_retains_enabled_witness :
  ∃ w' d',
    filter_categories ["actuators"] modules resolved = (Ok tt, w') ∧
    heap w' !! 2%positive = Some d' ∧
    d' !! "temperature" = None.
Proof.
  destruct (capability_filter_retains_enabled ["actuators"] modules resolved
              "t1" (ModInfo 1%positive 2%positive) 2%positive
              {[ "temperature" := IoInfo ["sensors"] "std_msgs/Float32" ]}
              demo_well_formed eq_refl (or_intror eq_refl) eq_refl)
    as (w' & d' & Hrun & Hl & Hiff & _).
  exists w', d'. split; [exact Hrun|]. split; [exact Hl|].
  destruct (d' !! "temperature") as [info|] eqn:Hd; [|reflexivity].
  apply Hiff in Hd as [Hin (c & Hc & Hen)].
  vm_compute in Hin. injection Hin as <-.
  apply list_elem_of_singleton in Hc as ->.
  apply list_elem_of_singleton in Hen. discriminate Hen.
Defined.

Lemma capability_filter_in_place_witness :
  ∃ w',
    filter_categories ["sensors"] modules resolved = (Ok tt, w') ∧
    fsys w' = fsys resolved ∧ trace w' = trace resolved.
Proof.
  destruct (capability_filter_in_place ["sensors"] modules resolved
              demo_well_formed) as (w' & Hrun & Hfs & Htr & _).
  exists w'. split; [exact Hrun|]. split; [exact Hfs|exact Htr].
Defined.

(** C1 as stated fails: with the actuators enabled, the outputs of [t1],
    which held the [temperature] entry before the loops, are empty after
    them; the input has been changed. *)
Lemma capability_filter_counterexample :
  ∃ w',
    filter_categories ["actuators"] modules resolved = (Ok tt, w') ∧
    heap resolved !! 2%positive =
      Some {[ "temperature" := IoInfo ["sensors"] "std_msgs/Float32" ]} ∧
    heap w' !! 2%positive = Some ∅ ∧
    heap w' ≠ heap resolved.
Proof.
  eexists. split; [vm_compute; reflexivity|].
  split; [vm_compute; reflexivity|].
  split; [vm_compute; reflexivity|].
  intros Heq. apply (f_equal (λ h, h !! 2%positive)) in Heq.
  vm_compute in Heq. discriminate Heq.
Qed.

End FilterExamples.

(** ** The plugins *)

Module PluginTheory.

Import Traces Firmware RunModuleTheory Stages.

Lemma fold_each_app {A S} (xs ys : list A) (s : S) (body : S → A → M S)
    (w : world) :
  fold_each (xs ++ ys) s body w =
  (fold_each xs s body ≫= λ s', fold_each ys s' body) w.
Proof.
  revert s w. induction xs as [|x xs IH]; intros s w; simpl; [done|].
  unfold mbind, M_bind, bind.
  destruct (body s x w) as [[s1|e] w1]; [|done].
  rewrite IH. done.
Qed.

Section Plugins.

Context `{Collaborators}.

Lemma resolve_plugin_builtin plugin_name cls w :
  plugin_map !! plugin_name = Some cls →
  resolve_plugin plugin_name w = (Ok cls, w).
Proof. intros Hcls. unfold resolve_plugin. by rewrite Hcls. Qed.

(** With built-in names only, no event comes from the plugins. *)
Lemma create_plugins_builtin (Q : event → Prop) plugin_names modules :
  (∀ name, name ∈ plugin_names → is_Some (plugin_map !! name)) →
  stable (extends Q) (create_plugins plugin_names modules).
Proof.
  intros Hall. unfold create_plugins.
  apply stable_fold_each_elem; [typeclasses eauto|].
  intros plugins name Hname. destruct (Hall name Hname) as [cls Hcls].
  unfold resolve_plugin. rewrite Hcls. stable_go.
Qed.

(** The events of [run] are those of its four parts. *)
Lemma run_events (Q : event → Prop) categories modules_file project_dir
    plugin_names target status_update_interval :
  (∀ e, resolve_event modules_file e → Q e) →
  (∀ modules, stable (extends Q) (create_plugins plugin_names modules)) →
  (∀ e, generate_event (src_file_path project_dir) e → Q e) →
  (∀ e, compile_event e → Q e) →
  stable (extends Q)
    (run categories modules_file project_dir plugin_names target
         status_update_interval).
Proof.
  intros Hres Hplug Hgen Hcomp. unfold run. stable_go.
  all: first
    [ apply Hplug
    | eapply extends_mono; [|apply resolve_modules_events]; done
    | eapply extends_mono; [|apply generate_events]; done
    | eapply extends_mono; [|apply compile_events]; done ].
Qed.

(** A failure while the plugins are created is the failure of [run], and
    up to it [run] has only loaded, synthesized and imported. *)
Lemma run_plugin_failure categories modules_file project_dir plugin_names
    target status_update_interval w modules w1 e w2 :
  resolve_modules categories modules_file (abspath project_dir) w
    = (Ok modules, w1) →
  create_plugins plugin_names modules w1 = (Raise e, w2) →
  run categories modules_file project_dir plugin_names target
      status_update_interval w = (Raise e, w2) ∧
  extends (λ ev, ¬ is_dependency_install ev ∧ ∀ path, ¬ writes_to path ev)
          w w2.
Proof.
  intros Hres Hplug. split.
  - unfold run. erewrite bind_ok by exact Hres. by apply bind_raise.
  - pose proof (resolve_modules_events categories modules_file
                  (abspath project_dir) w) as H1.
    pose proof (create_plugins_events plugin_names modules w1) as H2.
    rewrite Hres in H1. rewrite Hplug in H2. simpl in *.
    etrans.
    + eapply extends_weaken; [|exact H1].
      by_event.
    + eapply extends_weaken; [|exact H2].
      by_event.
Qed.

(** C10.  A plugin name that is in the built-in table resolves to the
    class of the table and leaves the world as it is: the name is not
    split and nothing is imported.  When every plugin name of a run is in
    the table, the run imports no module at all. *)
Theorem builtin_plugin_precedence categories modules_file project_dir
    plugin_names target status_update_interval plugin_name cls w :
  plugin_map !! plugin_name = Some cls →
  resolve_plugin plugin_name w = (Ok cls, w) ∧
  ((∀ name, name ∈ plugin_names → is_Some (plugin_map !! name)) →
   extends (λ ev, ¬ is_import ev) w
     (run categories modules_file project_dir plugin_names target
          status_update_interval w).2).
Proof.
  intros Hcls. split; [by apply resolve_plugin_builtin|].
  intros Hall. apply run_events.
  - by_event.
  - intros modules. by apply create_plugins_builtin.
  - by_event.
  - by_event.
Qed.

(** The exception that leaves the handlers of lines 186-201 when the
    import raises [e]. *)
Lemma resolve_plugin_import_raise plugin_name m c e w :
  plugin_map !! plugin_name = None →
  Py.split ":" plugin_name = [m; c] →
  import_module m = Raise e →
  resolve_plugin plugin_name w =
  (Raise match e with
         | ValueError => not_a_plugin_path plugin_name
         | ImportError => not_a_module m
         | AttributeError => no_such_class m c
         | _ => e
         end,
   log (Import m) w).
Proof.
  intros Hmap Hsplit Himport. unfold resolve_plugin.
  rewrite Hmap, Hsplit.
  unfold try_except, mbind, M_bind, bind, lift, emit. simpl.
  rewrite Himport. simpl. by destruct e.
Qed.

(** C7, as the code has it.  For a plugin name that is not in the
    built-in table.  When the name does not split at colons into a module
    path and a class name, resolution fails with the [ClickException] of
    an invalid plugin path.  When the import of the module path raises,
    the class of the exception decides: [ImportError] gives the
    [ClickException] of a name that is no Python module, [ValueError] the
    one of an invalid plugin path, [AttributeError] the one of a missing
    class, and any other exception leaves the resolution as it is.  When
    the module is imported and has no attribute of the class name,
    resolution fails with the [ClickException] of the missing class.
    There is no other failure: an exception of the resolution is one of
    the three [ClickException]s or the exception of the import.  A name
    whose resolution fails, after names whose plugins are created, makes
    the creation of the plugins fail with its exception; and a failure of
    that creation is the failure of [run], before which nothing installs a
    dependency or writes to a file. *)
Theorem plugin_resolution_errors categories modules_file project_dir
    target status_update_interval plugin_name w :
  plugin_map !! plugin_name = None →
  ((∀ m c, Py.split ":" plugin_name ≠ [m; c]) →
   resolve_plugin plugin_name w = (Raise (not_a_plugin_path plugin_name), w)) ∧
  (∀ m c e, Py.split ":" plugin_name = [m; c] →
            import_module m = Raise e →
            resolve_plugin plugin_name w =
            (Raise match e with
                   | ValueError => not_a_plugin_path plugin_name
                   | ImportError => not_a_module m
                   | AttributeError => no_such_class m c
                   | _ => e
                   end,
             log (Import m) w)) ∧
  (∀ m c plugin_module,
     Py.split ":" plugin_name = [m; c] →
     import_module m = Ok plugin_module →
     plugin_module !! c = None →
     resolve_plugin plugin_name w =
     (Raise (no_such_class m c), log (Import m) w)) ∧
  (∀ e w',
     resolve_plugin plugin_name w = (Raise e, w') →
     e = not_a_plugin_path plugin_name ∨
     ∃ m c, Py.split ":" plugin_name = [m; c] ∧
            (e = not_a_module m ∨ e = no_such_class m c ∨
             import_module m = Raise e)) ∧
  (∀ before after modules plugins w0 w1 e w2,
     create_plugins before modules w0 = (Ok plugins, w1) →
     resolve_plugin plugin_name w1 = (Raise e, w2) →
     create_plugins (before ++ plugin_name :: after) modules w0
       = (Raise e, w2)) ∧
  (∀ plugin_names modules w0 w1 e w2,
     resolve_modules categories modules_file (abspath project_dir) w0
       = (Ok modules, w1) →
     create_plugins plugin_names modules w1 = (Raise e, w2) →
     run categories modules_file project_dir plugin_names target
         status_update_interval w0 = (Raise e, w2) ∧
     extends (λ ev, ¬ is_dependency_install ev ∧ ∀ path, ¬ writes_to path ev)
             w0 w2).
Proof.
  intros Hnone. split_and!.
  - intros Hsplit. unfold resolve_plugin. rewrite Hnone.
    destruct (Py.split ":" plugin_name) as [|m [|c [|x l]]]; try done.
    by destruct (Hsplit m c).
  - intros m c e. by apply resolve_plugin_import_raise.
  - intros m c plugin_module Hsplit Himport Hattr. unfold resolve_plugin.
    rewrite Hnone, Hsplit. unfold try_except, mbind, M_bind, bind, lift.
    simpl. rewrite Himport. unfold getattr. by rewrite Hattr.
  - intros e w' Hfail.
    destruct (Py.split ":" plugin_name) as [|m [|c [|x l]]] eqn:Hsplit;
      try (left; unfold resolve_plugin in Hfail;
           rewrite Hnone, Hsplit in Hfail; by injection Hfail as <- _).
    destruct (import_module m) as [plugin_module|e0] eqn:Himport.
    + right. exists m, c. split; [done|].
      unfold resolve_plugin in Hfail. rewrite Hnone, Hsplit in Hfail.
      unfold try_except, mbind, M_bind, bind, lift in Hfail.
      simpl in Hfail. rewrite Himport in Hfail. unfold getattr in Hfail.
      destruct (plugin_module !! c); simpl in Hfail; [done|].
      right. left. by injection Hfail as <- _.
    + rewrite (resolve_plugin_import_raise _ _ _ _ _ Hnone Hsplit Himport)
        in Hfail.
      injection Hfail as <- _.
      destruct e0; first [by left | right; exists m, c; auto].
  - intros before after modules plugins w0 w1 e w2 Hbefore Hfail.
    unfold create_plugins in *. rewrite fold_each_app.
    erewrite bind_ok by exact Hbefore. simpl.
    apply bind_raise. by apply bind_raise.
  - intros plugin_names modules w0 w1 e w2 Hres Hplug.
    eapply run_plugin_failure; eauto.
Qed.

End Plugins.

End PluginTheory.

(** ** The plugins of the small project *)

Module PluginExamples.

Import Firmware PluginTheory Demo DemoVariants.

(** The built-in [csv] plugin. *)
Lemma builtin_plugin_precedence_witness :
  resolve_plugin "csv" start = (Ok csv_plugin, start).
Proof.
  apply (builtin_plugin_precedence [] None "/p" [] None 5 "csv"
           csv_plugin start).
  reflexivity.
Defined.

(** A name without a colon, a module that does not exist, and a class that
    the module [my_plugins] does not have. *)
Lemma plugin_resolution_errors_witness :
  resolve_plugin "blink" start = (Raise (not_a_plugin_path "blink"), start) ∧
  resolve_plugin "nowhere:Blink" start =
    (Raise (not_a_module "nowhere"), log (Import "nowhere") start) ∧
  (run ["sensors"] (Some "modules.json") "/p" ["csv"; "my_plugins:Missing"]
       None 5 start).1 = Raise (no_such_class "my_plugins" "Missing").
Proof.
  split; [|split].
  - destruct (plugin_resolution_errors [] None "/p" None 5 "blink" start)
      as (Hpath & _).
    + vm_compute. reflexivity.
    + apply Hpath. intros m c. vm_compute. discriminate.
  - destruct (plugin_resolution_errors [] None "/p" None 5
                "nowhere:Blink" start) as (_ & Hmodule & _).
    + vm_compute. reflexivity.
    + apply (Hmodule "nowhere" "Blink" ImportError).
      * vm_compute. reflexivity.
      * vm_compute. reflexivity.
  - destruct (plugin_resolution_errors ["sensors"] (Some "modules.json")
                "/p" None 5 "my_plugins:Missing" start)
      as (_ & _ & _ & _ & _ & Hrun).
    + vm_compute. reflexivity.
    + destruct (Hrun ["csv"; "my_plugins:Missing"] modules start
                  (resolve_modules ["sensors"] (Some "modules.json") "/p"
                     start).2
                  (no_such_class "my_plugins" "Missing")
                  (create_plugins ["csv"; "my_plugins:Missing"] modules
                     (resolve_modules ["sensors"] (Some "modules.json") "/p"
                        start).2).2) as [Hfail _].
      * vm_compute. reflexivity.
      * vm_compute. reflexivity.
      * rewrite Hfail. reflexivity.
Defined.

(** C7 as stated fails.  The plugin name [.rel:Blink] is not built in and
    has the form of a module path and a class name, and its module path
    cannot be imported: the import raises [TypeError], which no handler of
    lines 186-201 catches, and the run ends with that [TypeError], which
    is none of the three [ClickException]s.  And the name [:Blink], whose
    import raises [ValueError], is reported as an invalid plugin path
    although it has the form. *)
Lemma plugin_resolution_counterexample :
  @plugin_map builtins strict_import !! ".rel:Blink" = None ∧
  Py.split ":" ".rel:Blink" = [".rel"; "Blink"] ∧
  @import_module builtins strict_import ".rel" = Raise TypeError ∧
  (@run builtins strict_import ["sensors"] (Some "modules.json") "/p"
     [".rel:Blink"] None 5 start).1 = Raise TypeError ∧
  (∀ msg, TypeError ≠ ClickException msg) ∧
  Py.split ":" ":Blink" = [""; "Blink"] ∧
  (@resolve_plugin builtins strict_import ":Blink" start).1 =
    Raise (not_a_plugin_path ":Blink").
Proof.
  split_and!; try (vm_compute; reflexivity). intros msg. discriminate.
Qed.

End PluginExamples.

(** ** Where the modules come from *)

Module SourcesTheory.

Import Traces Firmware RunModuleTheory Stages PluginTheory.

Lemma bind_ok_inv {A B} (m : M A) (k : A → M B) (w w' : world) (b : B) :
  (m ≫= k) w = (Ok b, w') →
  ∃ a w1, m w = (Ok a, w1) ∧ k a w1 = (Ok b, w').
Proof.
  unfold mbind, M_bind, bind. destruct (m w) as [[a|e] w1]; [eauto|done].
Qed.

Lemma isfile_run (p : string) (w : world) :
  os_path_isfile p w = (Ok (isfile (fsys w) p), w).
Proof. done. Qed.

Lemma isdir_run (p : string) (w : world) :
  os_path_isdir p w = (Ok (isdir (fsys w) p), w).
Proof. done. Qed.

Section Sources.

Context `{Collaborators}.








End Sources.

End SourcesTheory.

(** ** The modules of the small project *)

Module SourcesExamples.

Import Firmware SourcesTheory Demo.


End SourcesExamples.

(** ** The module types *)

Module TypesTheory.

Import Traces Firmware RunModuleTheory Stages SourcesTheory.

Section Types.

Context `{Collaborators}.

Lemma load_lib_type_same_fs lib_path module_types dir_name :
  stable same_fs (load_lib_type lib_path module_types dir_name).
Proof. unfold load_lib_type. stable_go. Qed.

(** A turn of the loop for another name leaves the type of [_id]. *)
Lemma load_lib_type_other lib_path module_types dir_name _id w mts w1 :
  dir_name ≠ _id →
  load_lib_type lib_path module_types dir_name w = (Ok mts, w1) →
  mts !! _id = module_types !! _id.
Proof.
  intros Hne. unfold load_lib_type.
  rewrite (bind_ok _ _ _ _ _ (isdir_run _ w)).
  destruct (isdir _ _); simpl; [|by intros [= <- _]].
  rewrite (bind_ok _ _ _ _ _ (isfile_run _ w)).
  destruct (isfile _ _); simpl; [|by intros [= <- _]].
  intros Hrun.
  apply bind_ok_inv in Hrun as (text & w2 & _ & Hrun).
  apply bind_ok_inv in Hrun as ([] & w3 & _ & Hrun).
  apply bind_ok_inv in Hrun as (doc & w4 & _ & Hrun).
  apply bind_ok_inv in Hrun as (t & w5 & _ & Hrun).
  injection Hrun as <- _. by apply lookup_insert_ne.
Qed.

(** A turn of the loop for [_id], when it ends, has found the directory
    empty of a [module.json] or has set the type of [_id] to the one the
    folder defines. *)
Lemma load_lib_type_self lib_path module_types _id w mts w1 :
  load_lib_type lib_path module_types _id w = (Ok mts, w1) →
  isdir (fsys w) (path_join lib_path _id) = true →
  is_Some (files (fsys w) !!
             resolve (fsys w)
               (path_join (path_join lib_path _id) "module.json")) →
  ∃ t, lib_defines (fsys w) lib_path _id t ∧ mts !! _id = Some t.
Proof.
  intros Hrun Hdir [text Htext]. unfold load_lib_type in Hrun.
  rewrite (bind_ok _ _ _ _ _ (isdir_run _ w)) in Hrun.
  rewrite Hdir in Hrun. simpl in Hrun.
  rewrite (bind_ok _ _ _ _ _ (isfile_run _ w)) in Hrun.
  unfold isfile in Hrun. rewrite Htext in Hrun.
  rewrite bool_decide_eq_true_2 in Hrun by eauto.
  unfold read_text in Hrun.
  apply bind_ok_inv in Hrun as (text' & w2 & Hread & Hrun).
  unfold mbind, M_bind, bind, get_fs in Hread. simpl in Hread.
  rewrite Htext in Hread. injection Hread as <- <-.
  apply bind_ok_inv in Hrun as ([] & w3 & _ & Hrun).
  apply bind_ok_inv in Hrun as (doc & w4 & Hdoc & Hrun).
  apply bind_ok_inv in Hrun as (t & w5 & Ht & Hrun).
  unfold lift in Hdoc, Ht. injection Hdoc as Hdoc _. injection Ht as Ht _.
  injection Hrun as <- _. exists t. split; [|apply lookup_insert_eq].
  split; [done|]. by exists text, doc.
Qed.

Lemma lib_defines_functional f lib_path _id t1 t2 :
  lib_defines f lib_path _id t1 → lib_defines f lib_path _id t2 → t1 = t2.
Proof.
  intros [_ (text1 & doc1 & Hf1 & Hd1 & Ht1)] [_ (text2 & doc2 & Hf2 & Hd2 & Ht2)].
  congruence.
Qed.

(** The loop over the names of the [lib] folder: a name of the list that
    the folder defines ends with the folder's type, whatever the types at
    the start. *)
Lemma lib_loop lib_path names module_types _id t w mts w1 :
  fold_each names module_types (load_lib_type lib_path) w = (Ok mts, w1) →
  lib_defines (fsys w) lib_path _id t →
  (_id ∈ names → mts !! _id = Some t) ∧
  (_id ∉ names → mts !! _id = module_types !! _id).
Proof.
  revert module_types w.
  induction names as [|n names IH]; intros module_types w Hrun Hdef.
  - simpl in Hrun. injection Hrun as <- _. split; [|done].
    intros Hin. by apply elem_of_nil in Hin.
  - simpl in Hrun.
    change (bind ?m ?k) with (m ≫= k) in Hrun.
    apply bind_ok_inv in Hrun as (mts0 & w0 & Hturn & Hrun).
    pose proof (load_lib_type_same_fs lib_path module_types n w) as Hfs.
    rewrite Hturn in Hfs. unfold same_fs in Hfs. simpl in Hfs.
    rewrite <- Hfs in Hdef.
    destruct (IH _ _ Hrun Hdef) as [IHin IHout].
    rewrite Hfs in Hdef.
    destruct (decide (n = _id)) as [->|Hne].
    + split.
      * intros _. destruct (decide (_id ∈ names)) as [Hin|Hout];
          [by apply IHin|].
        rewrite (IHout Hout).
        destruct Hdef as [Hdir (text & doc & Htext & Hdoc & Ht)].
        destruct (load_lib_type_self _ _ _ _ _ _ Hturn Hdir)
          as (t' & Hdef' & ->); [eauto|].
        f_equal. eapply lib_defines_functional; [done|].
        split; [done|]. by exists text, doc.
      * intros Hnot. exfalso. apply Hnot. left.
    + split.
      * intros Hin. apply elem_of_cons in Hin as [->|Hin]; [done|].
        by apply IHin.
      * intros Hnot. rewrite IHout.
        -- by eapply load_lib_type_other.
        -- intros Hin. apply Hnot. by right.
Qed.

Lemma listdir_run (p : string) (w : world) :
  (os_listdir p w).2 = w ∧
  ∀ w0, fsys w0 = fsys w → (os_listdir p w0).1 = (os_listdir p w).1.
Proof.
  unfold os_listdir, mbind, M_bind, bind, get_fs. simpl. split.
  - by destruct (isdir _ _).
  - intros w0 ->. by destruct (isdir _ _).
Qed.

(** C6.  When the module types load, a name of the [lib] folder that the
    folder defines (a directory with a [module.json] that validates) has
    in the registry the type of the folder, whatever the server holds
    under the same name: the folder is read after the server. *)
Theorem local_types_override_remote project_dir w reg w' _id t :
  load_module_types project_dir w = (Ok reg, w') →
  (∃ names, (os_listdir (path_join project_dir "lib") w).1 = Ok names ∧
            _id ∈ names) →
  lib_defines (fsys w) (path_join project_dir "lib") _id t →
  reg !! _id = Some t.
Proof.
  intros Hrun (names & Hnames & Hin) Hdef.
  unfold load_module_types in Hrun.
  apply bind_ok_inv in Hrun as (mts0 & w0 & Hserver & Hrun).
  assert (fsys w0 = fsys w) as Hfs.
  { destruct (truthy local_server_url).
    - pose proof (load_server_types_same_fs (default "" local_server_url) ∅ w)
        as Hsame.
      by rewrite Hserver in Hsame.
    - by injection Hserver as _ <-. }
  unfold load_lib_types in Hrun.
  apply bind_ok_inv in Hrun as (names' & w1 & Hlist & Hrun).
  destruct (listdir_run (path_join project_dir "lib") w) as [_ Hsame].
  destruct (listdir_run (path_join project_dir "lib") w0) as [Hw0 _].
  specialize (Hsame w0 Hfs). rewrite Hlist in Hsame, Hw0. simpl in *.
  subst w1. rewrite Hnames in Hsame. injection Hsame as ->.
  rewrite <- Hfs in Hdef.
  by apply (lib_loop _ _ _ _ _ _ _ _ Hrun Hdef).
Qed.

End Types.

End TypesTheory.

(** ** The module types of the small project *)

Module TypesExamples.

Import Firmware TypesTheory Demo.

(** The server and the [lib] folder of [/p] both hold a [temp_sensor]; the
    registry has the one of the folder. *)
Lemma local_types_override_remote_witness :
  ∃ reg,
    (load_module_types "/p" start).1 = Ok reg ∧
    db_doc "http://localhost:5984" FIRMWARE_MODULE_TYPE "temp_sensor"
      = Ok (temp_sensor_doc "server") ∧
    reg !! "temp_sensor" = Some sensor_type.
Proof.
  destruct (load_module_types "/p" start) as [[reg|e] w'] eqn:Hrun.
  - exists reg. split; [reflexivity|]. split; [reflexivity|].
    apply (local_types_override_remote "/p" start reg w' "temp_sensor"
             sensor_type Hrun).
    + eexists. split; [vm_compute; reflexivity|].
      apply list_elem_of_singleton. reflexivity.
    + split; [vm_compute; reflexivity|].
      exists "temp_sensor.json", (temp_sensor_doc "lib").
      split; [vm_compute; reflexivity|]. split; reflexivity.
  - exfalso. apply (f_equal fst) in Hrun. vm_compute in Hrun. discriminate Hrun.
Defined.

End TypesExamples.

(** ** The source file *)

Module SourceFileTheory.

Import Traces Firmware RunModuleTheory Stages SourcesTheory.

Lemma append_assoc (s t u : string) : (s +:+ t) +:+ u = s +:+ (t +:+ u).
Proof.
  induction s as [|a s IH]; [done|].
  change (String a ((s +:+ t) +:+ u) = String a (s +:+ (t +:+ u))).
  by rewrite IH.
Qed.

Lemma append_empty_r (s : string) : s +:+ "" = s.
Proof.
  induction s as [|a s IH]; [done|].
  change (String a (s +:+ "") = String a s). by rewrite IH.
Qed.

(** Writing the pieces one after the other appends their text to the file
    and touches no other file, no directory, no link and no dictionary. *)
Lemma write_loop (chunks : list string) (path old : string) (w : world) :
  files (fsys w) !! resolve (fsys w) path = Some old →
  let r := for_each chunks (file_write path) w in
  r.1 = Ok tt ∧
  files (fsys r.2) !! resolve (fsys w) path = Some (old +:+ written chunks) ∧
  (∀ p, p ≠ resolve (fsys w) path →
        files (fsys r.2) !! p = files (fsys w) !! p) ∧
  dirs (fsys r.2) = dirs (fsys w) ∧ links (fsys r.2) = links (fsys w) ∧
  heap r.2 = heap w.
Proof.
  revert old w. induction chunks as [|c chunks IH]; intros old w Hold; simpl.
  - by rewrite append_empty_r.
  - unfold bind, file_write at 1.
    unfold mbind, M_bind, bind, get_fs, emit, put_fs. simpl.
    set (w1 := set_fsys _ _).
    assert (resolve (fsys w1) path = resolve (fsys w) path) as Hres by done.
    destruct (IH (old +:+ c) w1) as (Hok & Hfile & Hother & Hdirs & Hlinks & Hheap).
    { rewrite Hres. unfold w1. simpl. rewrite lookup_insert_eq.
      by rewrite Hold. }
    rewrite Hres in Hfile, Hother.
    split; [done|]. split; [by rewrite Hfile, append_assoc|].
    split; [|done].
    intros p Hp. rewrite (Hother p Hp). unfold w1. simpl.
    by rewrite lookup_insert_ne.
Qed.

Lemma open_w_run (dir name : string) (w : world) :
  isdir (fsys w) dir = true →
  isdir (fsys w) (path_join dir name) = false →
  open_w dir name w =
  (Ok (path_join dir name),
   set_fsys (Fs (<[resolve (fsys w) (path_join dir name) := ""]>
                   (files (fsys w)))
                (dirs (fsys w)) (links (fsys w)))
            (log (OpenWrite (path_join dir name)) w)).
Proof.
  intros Hdir Hpath. unfold open_w, mbind, M_bind, bind, get_fs. simpl.
  by rewrite Hdir, Hpath.
Qed.

Section SourceFile.

Context `{Collaborators}.

(** C2, as the code has it.  When the [src] directory is there, what
    [src.ino] holds after lines 221-222 is the text that [write_to] has
    written, all of it when [write_to] ends and the part before the
    exception when it raises; what the file held before is gone either
    way, since the file is emptied when it is opened.  The exception of
    [write_to] is the outcome, and no other file is touched. *)
Theorem source_file_after_generation src_dir cg w :
  isdir (fsys w) src_dir = true →
  isdir (fsys w) (path_join src_dir "src.ino") = false →
  (write_source src_dir cg w).1 =
    match (write_to cg (heap w)).2 with
    | Some e => Raise e
    | None => Ok tt
    end ∧
  files (fsys (write_source src_dir cg w).2)
    !! resolve (fsys w) (path_join src_dir "src.ino")
    = Some (written (write_to cg (heap w)).1) ∧
  (∀ p, p ≠ resolve (fsys w) (path_join src_dir "src.ino") →
        files (fsys (write_source src_dir cg w).2) !! p
        = files (fsys w) !! p).
Proof.
  intros Hdir Hpath.
  set (path := path_join src_dir "src.ino").
  set (w1 := set_fsys
               (Fs (<[resolve (fsys w) path := ""]> (files (fsys w)))
                   (dirs (fsys w)) (links (fsys w)))
               (log (OpenWrite path) w)).
  assert (write_source src_dir cg w =
          for_gen (write_to cg (heap w)) (file_write path) w1) as ->.
  { unfold write_source.
    by rewrite (bind_ok _ _ _ _ _ (open_w_run _ _ w Hdir Hpath)). }
  unfold for_gen, bind.
  destruct (write_loop (write_to cg (heap w)).1 path "" w1)
    as (Hok & Hfile & Hother & _).
  { unfold w1. simpl. apply lookup_insert_eq. }
  change (resolve (fsys w1) path) with (resolve (fsys w) path) in *.
  destruct (for_each _ _ w1) as [[[]|e] w2]; simpl in *; [|done].
  assert (∀ p, p ≠ resolve (fsys w) path →
               files (fsys w2) !! p = files (fsys w) !! p) as Hframe.
  { intros p Hp. rewrite (Hother p Hp). unfold w1. simpl.
    by rewrite lookup_insert_ne. }
  by destruct (write_to cg (heap w)).2.
Qed.

End SourceFile.

End SourceFileTheory.

(** ** The source file of the small project *)

Module SourceFileExamples.

Import Firmware SourceFileTheory Demo.

(** The generator whose plugin raises leaves the first piece in
    [src.ino]. *)
Lemma source_file_after_generation_witness :
  (write_source "/p/src" broken_codegen resolved).1
    = Raise (OtherError "GenerationError") ∧
  files (fsys (write_source "/p/src" broken_codegen resolved).2)
    !! "/p/src/src.ino" = Some "#include <a.h>".
Proof.
  destruct (source_file_after_generation "/p/src" broken_codegen resolved)
    as (Hout & Hfile & _).
  - vm_compute. reflexivity.
  - vm_compute. reflexivity.
  - split; [exact Hout|exact Hfile].
Defined.

(** C2 as stated fails: a run of [/p] with the plugin that raises in
    [write_to] fails, and [src.ino], which held the source of an earlier
    run, holds the first piece of the new one: neither the previous
    content nor the complete new one. *)
Lemma source_file_counterexample :
  files (fsys start) !! "/p/src/src.ino"
    = Some "void setup() {} void loop() {}" ∧
  (run ["sensors"] (Some "modules.json") "/p" ["my_plugins:Broken"] None 5
       start).1 = Raise (OtherError "GenerationError") ∧
  files (fsys (run ["sensors"] (Some "modules.json") "/p"
                   ["my_plugins:Broken"] None 5 start).2)
    !! "/p/src/src.ino" = Some "#include <a.h>" ∧
  written (write_to ["my_plugins.Blink"] ∅).1
    = "#include <a.h>void setup() {}void loop() {}".
Proof.
  split; [vm_compute; reflexivity|].
  split; [vm_compute; reflexivity|].
  split; vm_compute; reflexivity.
Qed.

End SourceFileExamples.

(** ** Runs of the small project *)

Module Scenarios.

Import Firmware Demo.

Example split_plugin_path :
  split ":" "my_plugins:Blink" = ["my_plugins"; "Blink"] ∧
  split ":" "blink" = ["blink"] ∧
  split ":" "a:b:c" = ["a"; "b"; "c"].
Proof. repeat split. Qed.

Example lower_mixed_case : lower "TrUe" = "true" ∧ lower "FALSE" = "false".
Proof. split; reflexivity. Qed.

Example join_paths :
  path_join "/p" "lib" = "/p/lib" ∧ path_join "/p/" "lib" = "/p/lib" ∧
  path_join "/p" "/abs" = "/abs" ∧
  normpath "/m/_build/lib/module/../../../module.json" = "/m/module.json".
Proof. repeat split; vm_compute; reflexivity. Qed.

(** With the sensors enabled the [temperature] output of [t1] stays. *)
Example sensors_enabled :
  heap (filter_categories ["sensors"] modules resolved).2 !! 2%positive
  = Some {[ "temperature" := IoInfo ["sensors"] "std_msgs/Float32" ]}.
Proof. vm_compute. reflexivity. Qed.

(** A run of [/p] with its modules file and the built-in [csv] plugin:
    the dependencies are installed, the source is written whole and the
    project is compiled. *)
Example run_of_the_project :
  let r := run ["sensors"] (Some "modules.json") "/p" ["csv"] None 5 start in
  r.1 = Ok tt ∧
  files (fsys r.2) !! "/p/src/src.ino"
    = Some "#include <a.h>void setup() {}void loop() {}" ∧
  last (trace r.2) = Some (Subprocess ["platformio"; "run"] (Some "/p")).
Proof. vm_compute. repeat split. Qed.

(** [run_module] on the sensor of [/m] with its one argument: the build
    directory is made, the sources are linked into it and the run goes
    through. *)
Example run_of_the_module :
  let r := run_module ["7"] "/m" "uno" ["sensors"] [] None 5 start in
  r.1 = Ok tt ∧
  links (fsys r.2) !! "/m/_build/lib/module/module.json"
    = Some "/m/module.json" ∧
  files (fsys r.2) !! "/m/_build/src/src.ino"
    = Some "#include <a.h>void setup() {}void loop() {}".
Proof. vm_compute. repeat split. Qed.

End Scenarios.

(** * Further properties of the commands *)

(** ** The argument loop when it ends *)

Module ArgsMore.

Import ArgsTheory.

Lemma res_map_ok {A B} (f : A → res B) (xs : list A) (ys : list B) :
  res_map f xs = Ok ys ↔
  length ys = length xs ∧
  ∀ k x, xs !! k = Some x → ∃ y, f x = Ok y ∧ ys !! k = Some y.
Proof.
  revert ys. induction xs as [|x xs IH]; intros ys; simpl.
  - split.
    + intros [= <-]. split; [done|]. intros k x Hk. by rewrite lookup_nil in Hk.
    + intros [Hlen _]. by destruct ys.
  - split.
    + intros Hrun. destruct (f x) as [y|e] eqn:Hx; [|done]. simpl in Hrun.
      destruct (res_map f xs) as [ys'|e] eqn:Hxs; [|done].
      injection Hrun as <-.
      destruct (IH ys') as [IH1 _]. destruct (IH1 eq_refl) as [Hlen Hall].
      split; [simpl; by rewrite Hlen|].
      intros [|k] x' Hk; simpl in *.
      * injection Hk as <-. eauto.
      * by apply Hall.
    + intros [Hlen Hall]. destruct ys as [|y ys]; [done|].
      destruct (Hall 0 x eq_refl) as (y' & Hx & [= <-]).
      rewrite Hx. simpl.
      assert (res_map f xs = Ok ys) as ->; [|done].
      apply IH. split; [simpl in Hlen; lia|].
      intros k x' Hk. apply (Hall (S k) x' Hk).
Qed.

Section Loop.

Context `{Builtins}.

Lemma parse_arguments_spec (arguments : list string)
    (declared : list arg_info) (real_args : list arg_val) :
  parse_arguments arguments declared = Ok real_args ↔
  length real_args = length arguments ∧
  ∀ i val, arguments !! i = Some val →
    ∃ info v, declared !! i = Some info ∧
              coerce i (arg_type info) val = Ok v ∧
              real_args !! i = Some v.
Proof.
  unfold parse_arguments. rewrite res_map_ok, length_seq.
  apply and_iff_compat_l. split.
  - intros Hall i val Hval.
    apply lookup_lt_Some in Hval as Hlt.
    destruct (Hall i i) as (v & Hbody & Hv); [by apply lookup_seq|].
    unfold parse_argument in Hbody.
    destruct (Nat.leb_spec (length declared) i); [done|].
    rewrite Hval in Hbody.
    destruct (declared !! i) as [info|] eqn:Hinfo; [|done].
    by exists info, v.
  - intros Hall k i Hk. apply lookup_seq in Hk as [-> Hlt].
    destruct (lookup_lt_is_Some_2 arguments k Hlt) as [val Hval].
    destruct (Hall k val Hval) as (info & v & Hinfo & Hco & Hv).
    exists v. split; [|done].
    by rewrite (parse_argument_declared _ _ _ _ _ Hinfo Hval).
Qed.

(** X1.  The loop of [run_module] ends without an exception exactly when
    every argument has a declared position and is coerced at it, and then
    [real_args] has the coerced value of each argument at its position.
    Arguments may be fewer than declared: no position is required, and
    with no argument at all the loop ends with no value. *)
Theorem parse_arguments_result (arguments : list string)
    (declared : list arg_info) (real_args : list arg_val) :
  (parse_arguments arguments declared = Ok real_args ↔
   length real_args = length arguments ∧
   ∀ i val, arguments !! i = Some val →
     ∃ info v, declared !! i = Some info ∧
               coerce i (arg_type info) val = Ok v ∧
               real_args !! i = Some v) ∧
  (parse_arguments arguments declared = Ok real_args →
   length arguments ≤ length declared) ∧
  parse_arguments [] declared = Ok [].
Proof.
  split; [apply parse_arguments_spec|]. split; [|done].
  intros [Hlen Hall]%parse_arguments_spec.
  destruct arguments as [|a arguments _] using rev_ind; [simpl; lia|].
  destruct (Hall (length arguments) a) as (info & _ & Hinfo & _).
  { by rewrite lookup_app_r, Nat.sub_diag. }
  apply lookup_lt_Some in Hinfo. rewrite length_app. simpl. lia.
Qed.

(** X2.  A declared type other than [int], [float] and [bool], whatever
    its spelling, is not checked: the arguments at such positions are kept
    as the strings they are, and the loop cannot fail on them. *)
Theorem untyped_arguments_kept (arguments : list string)
    (declared : list arg_info) :
  length arguments ≤ length declared →
  (∀ info, info ∈ declared →
     arg_type info ≠ "int" ∧ arg_type info ≠ "float" ∧
     arg_type info ≠ "bool") →
  parse_arguments arguments declared = Ok (VStr <$> arguments).
Proof.
  intros Hlen Htypes. apply parse_arguments_spec.
  split; [by rewrite length_fmap|].
  intros i val Hval. apply lookup_lt_Some in Hval as Hlt.
  destruct (lookup_lt_is_Some_2 declared i) as [info Hinfo]; [lia|].
  exists info, (VStr val). split; [done|]. split.
  - destruct (Htypes info) as (Hint & Hfloat & Hbool).
    { by eapply list_elem_of_lookup_2. }
    unfold coerce.
    apply String.eqb_neq in Hint, Hfloat, Hbool.
    by rewrite Hint, Hfloat, Hbool.
  - by rewrite list_lookup_fmap, Hval.
Qed.

End Loop.

(** A type spelled [Int] and one named [string], with one argument. *)
Lemma untyped_arguments_kept_witness :
  parse_arguments (H := Demo.builtins) ["07"]
    [ArgInfo "pin" "Int"; ArgInfo "mode" "string"]
  = Ok [VStr "07"].
Proof.
  apply (untyped_arguments_kept (H := Demo.builtins) ["07"]
           [ArgInfo "pin" "Int"; ArgInfo "mode" "string"]).
  - simpl. lia.
  - intros info Hin.
    apply elem_of_cons in Hin as [->|Hin]; [by repeat split|].
    apply list_elem_of_singleton in Hin as ->. by repeat split.
Defined.

End ArgsMore.

(** ** The loops over the categories, run again *)

Module FilterMore.

Import Traces Firmware RunModuleTheory FilterTheory.

Lemma filtered_heap_well_formed (categories : list string) (ls : list loc)
    (modules : gmap string mod_info) (h : gmap loc (gmap string io_info)) :
  well_formed modules h → well_formed modules (filtered_heap categories ls h).
Proof.
  intros Hwf name mi Hmi. destruct (Hwf name mi Hmi) as [[d1 H1] [d2 H2]].
  rewrite !filtered_heap_lookup, H1, H2. split; eauto.
Qed.

Lemma kept_comm (c1 c2 : list string) (d : gmap string io_info) :
  kept c1 (kept c2 d) = kept c2 (kept c1 d).
Proof.
  apply map_eq. intros entry. apply option_eq. intros info.
  rewrite !kept_lookup. tauto.
Qed.

Lemma filtered_heap_twice (c1 c2 : list string) (ls : list loc)
    (h : gmap loc (gmap string io_info)) (l : loc) :
  filtered_heap c2 ls (filtered_heap c1 ls h) !! l =
  (λ d, if bool_decide (l ∈ ls) then kept c2 (kept c1 d) else d) <$> h !! l.
Proof.
  rewrite !filtered_heap_lookup. destruct (h !! l) as [d|]; [|done]. simpl.
  by case_bool_decide.
Qed.

Lemma kept_nil (d : gmap string io_info) : kept [] d = ∅.
Proof.
  apply map_eq. intros entry. rewrite lookup_empty.
  destruct (kept [] d !! entry) as [info|] eqn:Hk; [|done].
  apply kept_lookup in Hk as [_ (c & _ & Hc)]. by apply elem_of_nil in Hc.
Qed.

(** X3.  The loops over the categories are idempotent: run a second time
    with the same categories on the world they have left, they end
    without an exception and change nothing. *)
Theorem capability_filter_idempotent (categories : list string)
    (modules : gmap string mod_info) (w : world) :
  well_formed modules (heap w) →
  filter_categories categories modules
    (filter_categories categories modules w).2
  = (Ok tt, (filter_categories categories modules w).2).
Proof.
  intros Hwf. rewrite (filter_categories_spec _ _ w Hwf). simpl.
  rewrite filter_categories_spec
    by (simpl; by apply filtered_heap_well_formed).
  f_equal. unfold set_heap. simpl. f_equal.
  apply map_eq. intros l. rewrite filtered_heap_twice, filtered_heap_lookup.
  destruct (heap w !! l) as [d|]; [|done]. simpl.
  case_bool_decide; [by rewrite kept_idemp|done].
Qed.

(** X4.  The loops remove entries and nothing else: the heap has the same
    dictionaries after them, every module still has its two, and with no
    category enabled at all both dictionaries of every module are left
    empty. *)
Theorem capability_filter_keeps_modules (categories : list string)
    (modules : gmap string mod_info) (w : world) :
  well_formed modules (heap w) →
  ∃ w',
    filter_categories categories modules w = (Ok tt, w') ∧
    dom (heap w') = dom (heap w) ∧
    well_formed modules (heap w') ∧
    (categories = [] →
     ∀ name mi, modules !! name = Some mi →
       heap w' !! mi_inputs mi = Some ∅ ∧
       heap w' !! mi_outputs mi = Some ∅).
Proof.
  intros Hwf. eexists. split; [by apply filter_categories_spec|]. simpl.
  split; [|split].
  - apply set_eq. intros l. rewrite !elem_of_dom, filtered_heap_lookup.
    by rewrite fmap_is_Some.
  - by apply filtered_heap_well_formed.
  - intros -> name mi Hmi.
    destruct (Hwf name mi Hmi) as [[d1 H1] [d2 H2]].
    rewrite !filtered_heap_lookup, H1, H2. simpl.
    rewrite !bool_decide_eq_true_2, !kept_nil; [done| |];
      apply elem_of_locs_of; eauto.
Qed.

(** X5.  Two passes of the loops with two lists of categories give the
    same world in either order: what is left are the entries that have a
    category of the first list and a category of the second. *)
Theorem capability_filter_commutes (c1 c2 : list string)
    (modules : gmap string mod_info) (w : world) :
  well_formed modules (heap w) →
  (filter_categories c1 modules ;; filter_categories c2 modules) w =
  (filter_categories c2 modules ;; filter_categories c1 modules) w ∧
  ∀ name mi l d,
    modules !! name = Some mi →
    l = mi_inputs mi ∨ l = mi_outputs mi →
    heap w !! l = Some d →
    ∃ d',
      heap ((filter_categories c1 modules ;;
             filter_categories c2 modules) w).2 !! l = Some d' ∧
      ∀ entry info,
        d' !! entry = Some info ↔
        d !! entry = Some info ∧ enabled c1 info ∧ enabled c2 info.
Proof.
  intros Hwf.
  assert (∀ a b,
    (filter_categories a modules ;; filter_categories b modules) w =
    (Ok tt,
     set_heap (filtered_heap b (locs_of (map_to_list modules))
                 (filtered_heap a (locs_of (map_to_list modules)) (heap w)))
              w)) as Hboth.
  { intros a b.
    erewrite bind_ok by (by apply filter_categories_spec).
    rewrite filter_categories_spec
      by (simpl; by apply filtered_heap_well_formed).
    done. }
  split.
  - rewrite !Hboth. f_equal. unfold set_heap. f_equal.
    apply map_eq. intros l. rewrite !filtered_heap_twice.
    destruct (heap w !! l) as [d|]; [|done]. simpl.
    case_bool_decide; [by rewrite kept_comm|done].
  - intros name mi l d Hmi Hl Hd. rewrite Hboth. simpl.
    rewrite filtered_heap_twice, Hd. simpl.
    rewrite bool_decide_eq_true_2 by (apply elem_of_locs_of; eauto).
    eexists. split; [done|]. intros entry info.
    rewrite !kept_lookup. tauto.
Qed.

End FilterMore.

Module FilterMoreExamples.

Import Firmware FilterTheory FilterMore FilterExamples Demo.

Lemma capability_filter_idempotent_witness :
  filter_categories ["actuators"] modules
    (filter_categories ["actuators"] modules resolved).2
  = (Ok tt, (filter_categories ["actuators"] modules resolved).2).
Proof.
  apply (capability_filter_idempotent ["actuators"] modules resolved).
  exact demo_well_formed.
Defined.

Lemma capability_filter_keeps_modules_witness :
  ∃ w',
    filter_categories [] modules resolved = (Ok tt, w') ∧
    heap w' !! 2%positive = Some ∅.
Proof.
  destruct (capability_filter_keeps_modules [] modules resolved
              demo_well_formed) as (w' & Hrun & _ & _ & Hempty).
  exists w'. split; [exact Hrun|].
  destruct (Hempty eq_refl "t1" (ModInfo 1%positive 2%positive)) as [_ Hout].
  - reflexivity.
  - exact Hout.
Defined.

Lemma capability_filter_commutes_witness :
  (filter_categories ["sensors"] modules ;;
   filter_categories ["actuators"] modules) resolved =
  (filter_categories ["actuators"] modules ;;
   filter_categories ["sensors"] modules) resolved.
Proof.
  apply (capability_filter_commutes ["sensors"] ["actuators"] modules resolved).
  exact demo_well_formed.
Defined.

End FilterMoreExamples.

(** ** The plugins that are created *)

Module PluginMore.

Import Traces Firmware RunModuleTheory Stages PluginTheory SourcesTheory.

Section Plugins.

Context `{Collaborators}.

Lemma resolve_plugin_ok plugin_name cls w w' :
  resolve_plugin plugin_name w = (Ok cls, w') →
  resolves plugin_name cls ∧ heap w' = heap w ∧ fsys w' = fsys w.
Proof.
  unfold resolve_plugin, resolves.
  destruct (plugin_map !! plugin_name) as [cls'|] eqn:Hmap.
  - intros [= <- <-]. by split; [left|].
  - destruct (Py.split ":" plugin_name) as [|m [|c [|x l]]] eqn:Hsplit; try done.
    unfold try_except, mbind, M_bind, bind, lift, emit. simpl.
    destruct (import_module m) as [plugin_module|e] eqn:Himport; simpl.
    + unfold getattr.
      destruct (plugin_module !! c) as [cls'|] eqn:Hattr; simpl; [|done].
      intros [= <- <-]. split; [|done]. right. split; [done|].
      by exists m, c, plugin_module.
    + by destruct e.
Qed.

(** X6.  A plugin name resolves to a class exactly when the built-in
    table has the name with that class, or the table does not have the
    name, the name splits at its colons into a module path and a class
    name, the module is imported and the class is an attribute of it. *)
Theorem plugin_resolution_succeeds plugin_name cls w :
  (resolve_plugin plugin_name w).1 = Ok cls ↔ resolves plugin_name cls.
Proof.
  split.
  - destruct (resolve_plugin plugin_name w) as [r w'] eqn:Hrun. simpl.
    intros ->. by apply resolve_plugin_ok in Hrun as [? _].
  - intros [Hmap|(Hmap & m & c & plugin_module & Hsplit & Himport & Hattr)].
    + by rewrite (resolve_plugin_builtin _ _ _ Hmap).
    + unfold resolve_plugin. rewrite Hmap, Hsplit.
      unfold try_except, mbind, M_bind, bind, lift, emit. simpl.
      rewrite Himport. simpl. unfold getattr. by rewrite Hattr.
Qed.

(** X7.  For a name of the form [module:class] that the built-in table
    does not have, the exception that the import raises decides the
    failure by its class alone: a [ValueError] of the import is reported
    as an invalid plugin path and an [AttributeError] of the import as a
    class that the module does not contain, like the failures of the
    split and of the attribute lookup; every other exception except
    [ImportError] leaves the resolution as it is. *)
Theorem plugin_import_exceptions plugin_name m c e w :
  plugin_map !! plugin_name = None →
  Py.split ":" plugin_name = [m; c] →
  import_module m = Raise e →
  resolve_plugin plugin_name w =
  (Raise match e with
         | ValueError => not_a_plugin_path plugin_name
         | ImportError => not_a_module m
         | AttributeError => no_such_class m c
         | _ => e
         end,
   log (Import m) w).
Proof.
  intros Hmap Hsplit Himport. unfold resolve_plugin.
  rewrite Hmap, Hsplit.
  unfold try_except, mbind, M_bind, bind, lift, emit. simpl.
  rewrite Himport. simpl. by destruct e.
Qed.

(** The loop that creates the plugins, from the plugins it has. *)
Lemma create_plugins_loop plugin_names modules plugins result w w' :
  fold_each plugin_names plugins (λ plugins plugin_name,
    cls ← resolve_plugin plugin_name;
    h ← get_heap;
    p ← lift (new_plugin cls modules h);
    mret (plugins ++ [p])) w = (Ok result, w') →
  heap w' = heap w ∧ fsys w' = fsys w ∧
  ∃ new,
    result = plugins ++ new ∧
    Forall2 (λ plugin_name p,
               ∃ cls, resolves plugin_name cls ∧
                      new_plugin cls modules (heap w) = Ok p)
            plugin_names new.
Proof.
  revert plugins w.
  induction plugin_names as [|name names IH]; intros plugins w Hrun.
  - simpl in Hrun. injection Hrun as <- <-.
    split; [done|]. split; [done|]. exists []. by rewrite app_nil_r.
  - simpl in Hrun. change (bind ?m ?k) with (m ≫= k) in Hrun.
    apply bind_ok_inv in Hrun as (plugins1 & w1 & Hturn & Hrun).
    apply bind_ok_inv in Hturn as (cls & w2 & Hres & Hturn).
    apply resolve_plugin_ok in Hres as (Hres & Hheap2 & Hfs2).
    apply bind_ok_inv in Hturn as (h & w3 & Hh & Hturn).
    injection Hh as <- <-.
    apply bind_ok_inv in Hturn as (p & w4 & Hnew & Hturn).
    unfold lift in Hnew. injection Hnew as Hnew <-.
    injection Hturn as <- <-.
    apply IH in Hrun as (Hheap & Hfs & new & -> & Hall).
    split; [congruence|]. split; [congruence|].
    exists (p :: new). split; [by rewrite <- app_assoc|].
    constructor.
    + exists cls. split; [done|]. by rewrite <- Hheap2.
    + eapply Forall2_impl; [exact Hall|]. simpl.
      intros name' p' (cls' & Hres' & Hnew'). exists cls'.
      split; [done|]. by rewrite <- Hheap2.
Qed.

(** X8.  When the plugins are created, there is one plugin for each
    plugin name, in the order of the names: the plugin at a position is
    what the class that the name at that position resolves to gave when
    it was called on the modules. *)
Theorem plugins_in_declaration_order plugin_names modules plugins w w' :
  create_plugins plugin_names modules w = (Ok plugins, w') →
  Forall2 (λ plugin_name p,
             ∃ cls h, resolves plugin_name cls ∧
                      new_plugin cls modules h = Ok p)
          plugin_names plugins ∧
  length plugins = length plugin_names.
Proof.
  intros Hrun. unfold create_plugins in Hrun.
  apply create_plugins_loop in Hrun as (Hheap & Hfs & new & -> & Hall).
  simpl. split.
  - eapply Forall2_impl; [exact Hall|]. simpl.
    intros plugin_name p (cls & Hres & Hnew). by exists cls, (heap w).
  - symmetry. by eapply Forall2_length.
Qed.

End Plugins.

End PluginMore.

Module PluginMoreExamples.

Import Firmware PluginMore Demo.

(** The small project has no module [nowhere] to import. *)
Lemma plugin_import_exceptions_witness :
  resolve_plugin "nowhere:Blink" start =
  (Raise (not_a_module "nowhere"), log (Import "nowhere") start).
Proof.
  apply (plugin_import_exceptions "nowhere:Blink" "nowhere" "Blink"
           ImportError start).
  - vm_compute. reflexivity.
  - vm_compute. reflexivity.
  - vm_compute. reflexivity.
Defined.

Lemma plugins_in_declaration_order_witness :
  ∃ plugins,
    (create_plugins ["csv"; "my_plugins:Blink"] modules start).1 = Ok plugins ∧
    length plugins = 2.
Proof.
  destruct (create_plugins ["csv"; "my_plugins:Blink"] modules start)
    as [[plugins|e] w'] eqn:Hrun.
  - exists plugins. split; [reflexivity|].
    destruct (plugins_in_declaration_order _ _ _ _ _ Hrun) as (_ & Hlen).
    exact Hlen.
  - exfalso. apply (f_equal fst) in Hrun. vm_compute in Hrun.
    discriminate Hrun.
Defined.

End PluginMoreExamples.

(** ** Where the entries of the registry come from *)

Module RegistryMore.

Import Traces Firmware RunModuleTheory Stages SourcesTheory TypesTheory.

(** A loop whose turns either leave the mapping or set one key of it: an
    entry of the result was there at the start or was set by the turn of
    some element.  [I] is what the turns keep of the world. *)
Lemma fold_each_inserts {A V} (I : world → Prop)
    (Q : A → string → V → Prop) (xs : list A)
    (body : gmap string V → A → M (gmap string V)) :
  (∀ acc x w acc' w',
     I w → body acc x w = (Ok acc', w') →
     I w' ∧ (acc' = acc ∨ ∃ k v, Q x k v ∧ acc' = <[k := v]> acc)) →
  ∀ acc w r w',
    I w → fold_each xs acc body w = (Ok r, w') →
    ∀ k v, r !! k = Some v →
           acc !! k = Some v ∨ ∃ x, x ∈ xs ∧ Q x k v.
Proof.
  intros Hbody. induction xs as [|x xs IH]; intros acc w r w' HI Hrun k v Hk.
  - simpl in Hrun. injection Hrun as <- _. by left.
  - simpl in Hrun. change (bind ?m ?f) with (m ≫= f) in Hrun.
    apply bind_ok_inv in Hrun as (acc1 & w1 & Hturn & Hrun).
    destruct (Hbody _ _ _ _ _ HI Hturn) as [HI1 Hacc].
    destruct (IH _ _ _ _ HI1 Hrun k v Hk) as [Hin|(y & Hy & HQ)].
    + destruct Hacc as [->|(k' & v' & HQ & ->)]; [by left|].
      apply lookup_insert_Some in Hin as [[<- <-]|[_ Hin]]; [|by left].
      right. exists x. split; [left|done].
    + right. exists y. split; [by right|done].
Qed.

Section Registry.

Context `{Collaborators}.

Lemma load_lib_type_inv lib_path module_types dir_name w mts w' :
  load_lib_type lib_path module_types dir_name w = (Ok mts, w') →
  fsys w' = fsys w ∧
  (mts = module_types ∨
   ∃ t, lib_defines (fsys w) lib_path dir_name t ∧
        mts = <[dir_name := t]> module_types).
Proof.
  intros Hrun.
  pose proof (load_lib_type_same_fs lib_path module_types dir_name w) as Hfs.
  rewrite Hrun in Hfs. split; [exact Hfs|].
  unfold load_lib_type in Hrun.
  rewrite (bind_ok _ _ _ _ _ (isdir_run _ w)) in Hrun.
  destruct (isdir _ _) eqn:Hdir; simpl in Hrun;
    [|left; by injection Hrun as <- _].
  rewrite (bind_ok _ _ _ _ _ (isfile_run _ w)) in Hrun.
  destruct (isfile _ _) eqn:Hfile; simpl in Hrun;
    [|left; by injection Hrun as <- _].
  apply bind_ok_inv in Hrun as (text & w2 & Hread & Hrun).
  unfold read_text, mbind, M_bind, bind, get_fs in Hread. simpl in Hread.
  destruct (files (fsys w) !! _) as [text'|] eqn:Htext; [|done].
  injection Hread as <- <-.
  apply bind_ok_inv in Hrun as ([] & w3 & _ & Hrun).
  apply bind_ok_inv in Hrun as (doc & w4 & Hdoc & Hrun).
  apply bind_ok_inv in Hrun as (t & w5 & Ht & Hrun).
  unfold lift in Hdoc, Ht. injection Hdoc as Hdoc _. injection Ht as Ht _.
  injection Hrun as <- _. right. exists t. split; [|done].
  split; [done|]. by exists text', doc.
Qed.

(** X9.  Every module type of the registry has a source: it is the type
    that the [lib] folder defines under its name (a directory with a
    [module.json] that validates), or it is the validated document that
    the server holds under its id in the database of module types, an id
    that does not start with an underscore.  An entry of the folder that
    is no directory or has no [module.json] gives no type. *)
Theorem registry_entries_have_a_source project_dir w reg w' _id t :
  load_module_types project_dir w = (Ok reg, w') →
  reg !! _id = Some t →
  lib_defines (fsys w) (path_join project_dir "lib") _id t ∨
  ∃ doc, server_holds FIRMWARE_MODULE_TYPE _id doc ∧
         FirmwareModuleType doc = Ok t.
Proof.
  intros Hrun Hreg. unfold load_module_types in Hrun.
  apply bind_ok_inv in Hrun as (mts0 & w0 & Hserver & Hrun).
  assert (fsys w0 = fsys w ∧
          ∀ k v, mts0 !! k = Some v →
                 ∃ doc, server_holds FIRMWARE_MODULE_TYPE k doc ∧
                        FirmwareModuleType doc = Ok v) as [Hfs Hmts0].
  { destruct (truthy local_server_url) eqn:Hurl.
    - split.
      { pose proof (load_server_types_same_fs (default "" local_server_url)
                      ∅ w) as Hsame. by rewrite Hserver in Hsame. }
      unfold load_server_types in Hserver.
      apply bind_ok_inv in Hserver as ([] & w1 & _ & Hserver).
      apply bind_ok_inv in Hserver as (ids & w2 & Hids & Hserver).
      unfold lift in Hids. injection Hids as Hids _.
      intros k v Hk.
      match type of Hserver with
      | fold_each _ _ ?body _ = _ =>
          destruct (fold_each_inserts (λ _, True)
                      (λ x k v, x = k ∧ startswith k "_" = false ∧
                                ∃ doc, db_doc (default "" local_server_url)
                                         FIRMWARE_MODULE_TYPE k = Ok doc ∧
                                       FirmwareModuleType doc = Ok v)
                      ids body) with (2 := I) (3 := Hserver) (4 := Hk)
            as [Hempty|(x & Hx & <- & Hus & doc & Hdoc & Ht)]
      end.
      + intros acc x wa acc' wb _ Hturn. split; [done|].
        destruct (startswith x "_") eqn:Hus;
          [left; by injection Hturn as <- _|].
        apply bind_ok_inv in Hturn as ([] & w3 & _ & Hturn).
        apply bind_ok_inv in Hturn as ([] & w4 & _ & Hturn).
        apply bind_ok_inv in Hturn as (doc & w5 & Hdoc & Hturn).
        apply bind_ok_inv in Hturn as (t' & w6 & Ht & Hturn).
        unfold lift in Hdoc, Ht. injection Hdoc as Hdoc _.
        injection Ht as Ht _. injection Hturn as <- _.
        right. exists x, t'. split; [|done]. split; [done|]. split; [done|].
        by exists doc.
      + by rewrite lookup_empty in Hempty.
      + exists doc. split; [|done]. split; [done|]. split; [done|].
        split; [eauto|done].
    - injection Hserver as <- <-. split; [done|].
      intros k v Hk. by rewrite lookup_empty in Hk. }
  unfold load_lib_types in Hrun.
  apply bind_ok_inv in Hrun as (names & w1 & Hlist & Hrun).
  destruct (listdir_run (path_join project_dir "lib") w0) as [Hw0 _].
  rewrite Hlist in Hw0. simpl in Hw0. subst w1.
  match type of Hrun with
  | fold_each _ _ ?body _ = _ =>
      destruct (fold_each_inserts (λ wa, fsys wa = fsys w)
              (λ x k v, x = k ∧
                        lib_defines (fsys w) (path_join project_dir "lib") k v)
              names body) with (2 := Hfs) (3 := Hrun) (4 := Hreg)
    as [Hin|(x & Hx & <- & Hdef)]
  end.
  - intros acc x wa acc' wb Hwa Hturn.
    apply load_lib_type_inv in Hturn as [Hfsb [->|(t' & Hdef & ->)]].
    + split; [congruence|by left].
    + split; [congruence|]. right. exists x, t'. rewrite Hwa in Hdef.
      by split.
  - right. by apply Hmts0.
  - by left.
Qed.

(** X10.  The modules that are loaded from the server, when there is no
    modules file, are the validated documents that the server holds in
    the database of modules under ids that do not start with an
    underscore: the documents under the other ids are not read. *)
Theorem server_modules_have_a_source w ms w' _id m :
  load_modules None w = (Ok ms, w') →
  ms !! _id = Some m →
  ∃ doc, server_holds FIRMWARE_MODULE _id doc ∧ FirmwareModule doc = Ok m.
Proof.
  intros Hrun Hm. unfold load_modules in Hrun.
  destruct (truthy local_server_url) eqn:Hurl; [|done].
  apply bind_ok_inv in Hrun as ([] & w1 & _ & Hrun).
  apply bind_ok_inv in Hrun as (ids & w2 & Hids & Hrun).
  unfold lift in Hids. injection Hids as Hids _.
  match type of Hrun with
  | fold_each _ _ ?body _ = _ =>
      destruct (fold_each_inserts (λ _, True)
              (λ x k v, x = k ∧ startswith k "_" = false ∧
                        ∃ doc, db_doc (default "" local_server_url)
                                 FIRMWARE_MODULE k = Ok doc ∧
                               FirmwareModule doc = Ok v)
              ids body) with (2 := I) (3 := Hrun) (4 := Hm)
    as [Hempty|(x & Hx & <- & Hus & doc & Hdoc & Hv)]
  end.
  - intros acc x wa acc' wb _ Hturn. split; [done|].
    destruct (startswith x "_") eqn:Hus;
      [left; by injection Hturn as <- _|].
    apply bind_ok_inv in Hturn as ([] & w3 & _ & Hturn).
    apply bind_ok_inv in Hturn as ([] & w4 & _ & Hturn).
    apply bind_ok_inv in Hturn as (doc & w5 & Hdoc & Hturn).
    apply bind_ok_inv in Hturn as (m' & w6 & Hm' & Hturn).
    unfold lift in Hdoc, Hm'. injection Hdoc as Hdoc _.
    injection Hm' as Hm' _. injection Hturn as <- _.
    right. exists x, m'. split; [|done]. split; [done|]. split; [done|].
    by exists doc.
  - by rewrite lookup_empty in Hempty.
  - exists doc. split; [|done]. split; [done|]. split; [done|].
    split; [eauto|done].
Qed.

End Registry.

End RegistryMore.

Module RegistryMoreExamples.

Import Firmware RegistryMore Demo.

(** The [temp_sensor] of the registry of [/p] is the one of the folder,
    and its [pump] is the one of the server. *)
Lemma registry_entries_have_a_source_witness :
  ∃ reg t,
    (load_module_types "/p" start).1 = Ok reg ∧
    reg !! "pump" = Some t ∧
    ∃ doc, server_holds FIRMWARE_MODULE_TYPE "pump" doc ∧
           FirmwareModuleType doc = Ok t.
Proof.
  destruct (load_module_types "/p" start) as [[reg|e] w'] eqn:Hrun.
  - destruct (reg !! "pump") as [t|] eqn:Hpump.
    + exists reg, t. split; [reflexivity|]. split; [exact Hpump|].
      destruct (registry_entries_have_a_source "/p" start reg w' "pump" t
                  Hrun Hpump) as [[Hdir _]|Hserver].
      * exfalso. vm_compute in Hdir. discriminate Hdir.
      * exact Hserver.
    + exfalso. apply (f_equal fst) in Hrun. vm_compute in Hrun.
      injection Hrun as <-. vm_compute in Hpump. discriminate Hpump.
  - exfalso. apply (f_equal fst) in Hrun. vm_compute in Hrun.
    discriminate Hrun.
Defined.

(** The module [t9] of the server. *)
Lemma server_modules_have_a_source_witness :
  ∃ ms m,
    (load_modules None start).1 = Ok ms ∧
    ms !! "t9" = Some m ∧
    ∃ doc, server_holds FIRMWARE_MODULE "t9" doc ∧ FirmwareModule doc = Ok m.
Proof.
  destruct (load_modules None start) as [[ms|e] w'] eqn:Hrun.
  - destruct (ms !! "t9") as [m|] eqn:Hm.
    + exists ms, m. split; [reflexivity|]. split; [exact Hm|].
      exact (server_modules_have_a_source start ms w' "t9" m Hrun Hm).
    + exfalso. apply (f_equal fst) in Hrun. vm_compute in Hrun.
      injection Hrun as <-. vm_compute in Hm. discriminate Hm.
  - exfalso. apply (f_equal fst) in Hrun. vm_compute in Hrun.
    discriminate Hrun.
Defined.

End RegistryMoreExamples.

(** ** [init] *)

Module InitMore.

Import Traces Firmware RunModuleTheory Stages SourcesTheory.

Lemma try_except_ok {A} (m : M A) (handler : exn → M A) (w w' : world)
    (a : A) :
  m w = (Ok a, w') → try_except m handler w = (Ok a, w').
Proof. intros Hm. unfold try_except. by rewrite Hm. Qed.

Section Init.

Context `{Collaborators}.

Lemma subprocess_call_run argv cwd w status f' :
  run_process argv cwd (fsys w) = Ok (status, f') →
  subprocess_call argv cwd w =
  (Ok status, set_fsys f' (log (Subprocess argv cwd) w)).
Proof.
  intros Hproc. unfold subprocess_call, mbind, M_bind, bind, emit, get_fs,
    lift, put_fs. simpl. by rewrite Hproc.
Qed.

(** X11.  [init] fails in two ways before it writes anything: when
    [platformio init] cannot be started ([OSError]), with the
    [RuntimeError] of a PlatformIO that is not installed, and when it ends
    with a status other than zero, with the [RuntimeError] of a failed
    initialization.  Any other exception of the command passes through.
    In each case the world is that of the echo and of the command:
    [modules.json] has not been opened. *)
Theorem init_failures board project_dir w :
  (∀ e,
     run_process ["platformio"; "init"; "-b"; board]
       (Some (abspath project_dir)) (fsys w) = Raise e →
     init board project_dir w =
     (Raise match e with
            | OSError => RuntimeError "PlatformIO is not installed"
            | _ => e
            end,
      log (Subprocess ["platformio"; "init"; "-b"; board]
             (Some (abspath project_dir)))
          (log (Echo "Initializing PlatformIO project") w))) ∧
  (∀ status f',
     run_process ["platformio"; "init"; "-b"; board]
       (Some (abspath project_dir)) (fsys w) = Ok (status, f') →
     status ≠ 0%Z →
     init board project_dir w =
     (Raise (RuntimeError "Failed to initialize PlatformIO project"),
      set_fsys f'
        (log (Subprocess ["platformio"; "init"; "-b"; board]
                (Some (abspath project_dir)))
             (log (Echo "Initializing PlatformIO project") w)))).
Proof.
  split.
  - intros e Hproc.
    unfold init, subprocess_call, try_except, mbind, M_bind, bind, emit,
      get_fs, lift. simpl. rewrite Hproc. by destruct e.
  - intros status f' Hproc Hstatus.
    unfold init, subprocess_call, try_except, mbind, M_bind, bind, emit,
      get_fs, put_fs, lift. simpl. rewrite Hproc. simpl.
    by destruct (Z.eqb_spec status 0).
Qed.

(** X12.  When [platformio init] ends with status zero and has left the
    project directory in place, [init] ends without an exception and
    [modules.json] in the project directory holds the dump of the empty
    mapping, whatever it held before; the other files are as the command
    left them. *)
Theorem init_resets_modules_file board project_dir w f' text :
  run_process ["platformio"; "init"; "-b"; board]
    (Some (abspath project_dir)) (fsys w) = Ok (0%Z, f') →
  isdir f' (abspath project_dir) = true →
  isdir f' (path_join (abspath project_dir) "modules.json") = false →
  json_dump (PDict []) = Ok text →
  (init board project_dir w).1 = Ok tt ∧
  files (fsys (init board project_dir w).2)
    !! resolve f' (path_join (abspath project_dir) "modules.json")
    = Some text ∧
  (∀ p, p ≠ resolve f' (path_join (abspath project_dir) "modules.json") →
        files (fsys (init board project_dir w).2) !! p = files f' !! p) ∧
  dirs (fsys (init board project_dir w).2) = dirs f' ∧
  links (fsys (init board project_dir w).2) = links f'.
Proof.
  intros Hproc Hdir Hpath Hdump.
  set (path := path_join (abspath project_dir) "modules.json") in *.
  set (w1 := log (Echo "Initializing PlatformIO project") w).
  set (w2 := set_fsys f'
               (log (Subprocess ["platformio"; "init"; "-b"; board]
                       (Some (abspath project_dir))) w1)).
  set (w3 := set_fsys (Fs (<[resolve f' path := ""]> (files f'))
                          (dirs f') (links f'))
                      (log (OpenWrite path) w2)).
  assert (init board project_dir w = (file_write path text ;;
            emit (Echo "OpenAg firmware project initialized!")) w3) as ->.
  { unfold init.
    erewrite bind_ok by reflexivity.
    erewrite bind_ok
      by (apply try_except_ok, subprocess_call_run; exact Hproc).
    simpl.
    erewrite bind_ok by (apply SourceFileTheory.open_w_run; done).
    erewrite bind_ok by (unfold lift; by rewrite Hdump).
    done. }
  unfold file_write, mbind, M_bind, bind, emit, get_fs, put_fs. simpl.
  split; [done|]. split; [|split; [|done]].
  - change (resolve _ path) with (resolve f' path).
    by rewrite !lookup_insert_eq.
  - intros p Hp. change (resolve _ path) with (resolve f' path).
    by rewrite !lookup_insert_ne.
Qed.

End Init.

End InitMore.

Module InitMoreExamples.

Import Firmware InitMore Demo DemoMore.

(** [init] on the project [/p], whose [modules.json] is then the empty
    mapping. *)
Lemma init_resets_modules_file_witness :
  (init "uno" "/p" start).1 = Ok tt ∧
  files (fsys (init "uno" "/p" start).2) !! "/p/modules.json" = Some "{}".
Proof.
  destruct (init_resets_modules_file "uno" "/p" start disk_after_init "{}")
    as (Hok & Hfile & _).
  - vm_compute. reflexivity.
  - vm_compute. reflexivity.
  - vm_compute. reflexivity.
  - reflexivity.
  - split; [exact Hok|exact Hfile].
Defined.

End InitMoreExamples.

(** ** What [run] needs and the order of what it does *)

Module RunMore.

Import Traces Firmware RunModuleTheory Stages PluginTheory SourcesTheory
  TypesTheory.

Lemma in_phases_pad (P : event → Prop) (phases : list (event → Prop))
    (w w' : world) :
  extends P w w' → in_phases (P :: phases) w w'.
Proof.
  intros (evs & Htrace & Hall).
  exists (evs :: replicate (length phases) []). split.
  - rewrite Htrace. simpl. f_equal.
    assert (concat (replicate (length phases) (@nil event)) = []) as ->;
      [|by rewrite app_nil_r].
    induction phases; [done|]. simpl. done.
  - constructor; [done|]. induction phases; constructor; [done|done].
Qed.

Lemma in_phases_absorb (P : event → Prop) (phases : list (event → Prop))
    (w w1 w2 : world) :
  extends P w w1 → in_phases (P :: phases) w1 w2 →
  in_phases (P :: phases) w w2.
Proof.
  intros (evs & Htrace & Hall) (segments & Htrace2 & Hsegs).
  destruct segments as [|seg segments]; [by apply Forall2_length in Hsegs|].
  apply Forall2_cons in Hsegs as [Hseg Hsegs].
  exists ((evs ++ seg) :: segments). split.
  - rewrite Htrace2, Htrace. simpl. by rewrite !app_assoc.
  - constructor; [by apply Forall_app|done].
Qed.

Lemma in_phases_skip (P : event → Prop) (phases : list (event → Prop))
    (w w' : world) :
  in_phases phases w w' → in_phases (P :: phases) w w'.
Proof.
  intros (segments & Htrace & Hsegs). exists ([] :: segments).
  split; [done|]. by constructor.
Qed.

Lemma in_phases_last (P : event → Prop) (phases : list (event → Prop))
    (w w1 w2 : world) :
  in_phases phases w w1 → extends P w1 w2 →
  in_phases (phases ++ [P]) w w2.
Proof.
  intros (segments & Htrace & Hsegs) (evs & Htrace2 & Hall).
  exists (segments ++ [evs]). split.
  - rewrite Htrace2, Htrace, concat_app. simpl.
    by rewrite app_nil_r, app_assoc.
  - apply Forall2_app; [done|]. by repeat constructor.
Qed.

Lemma in_phases_stop (P : event → Prop) (phases : list (event → Prop))
    (w w' : world) :
  in_phases phases w w' → in_phases (phases ++ [P]) w w'.
Proof.
  intros Hphases. eapply in_phases_last; [done|]. reflexivity.
Qed.

(** A statement in the first phase, followed by statements in phases. *)
Lemma phases_bind_first {A B} (P : event → Prop)
    (phases : list (event → Prop)) (m : M A) (k : A → M B) :
  stable (extends P) m →
  (∀ a, stable (in_phases (P :: phases)) (k a)) →
  stable (in_phases (P :: phases)) (m ≫= k).
Proof.
  intros Hm Hk w. unfold mbind, M_bind, bind.
  specialize (Hm w). destruct (m w) as [[a|e] w1]; simpl in *.
  - eapply in_phases_absorb; [exact Hm|apply Hk].
  - by apply in_phases_pad.
Qed.

(** Statements in phases, followed by a statement in a last phase. *)
Lemma phases_bind_last {A B} (P : event → Prop)
    (phases : list (event → Prop)) (m : M A) (k : A → M B) :
  stable (in_phases phases) m →
  (∀ a, stable (extends P) (k a)) →
  stable (in_phases (phases ++ [P])) (m ≫= k).
Proof.
  intros Hm Hk w. unfold mbind, M_bind, bind.
  specialize (Hm w). destruct (m w) as [[a|e] w1]; simpl in *.
  - eapply in_phases_last; [exact Hm|apply Hk].
  - by apply in_phases_stop.
Qed.

Section Run.

Context `{Collaborators}.

Lemma write_source_writes src_dir cg :
  stable (extends (writes_to (path_join src_dir "src.ino")))
         (write_source src_dir cg).
Proof.
  unfold write_source. stable_go.
  all: first [ by apply open_w_events
             | opened; by apply file_write_events ].
Qed.

Lemma install_pio_dependencies_installs cg :
  stable (extends is_dependency_install) (install_pio_dependencies cg).
Proof.
  unfold install_pio_dependencies. stable_go.
  by apply subprocess_call_events.
Qed.

Lemma install_git_dependencies_installs lib_dir cg :
  stable (extends (λ e, is_echo e ∨ is_dependency_install e))
         (install_git_dependencies lib_dir cg).
Proof.
  unfold install_git_dependencies. stable_go.
  all: first [ apply subprocess_call_events; by right | by left ].
Qed.

Lemma generate_phases modules_file project_dir modules plugins
    status_update_interval :
  stable (in_phases [before_source modules_file;
                     writes_to
                       (path_join (path_join project_dir "src") "src.ino")])
         (generate project_dir modules plugins status_update_interval).
Proof.
  unfold generate.
  apply phases_bind_first; [apply stable_get_heap; typeclasses eauto|].
  intros h.
  apply phases_bind_first; [apply stable_lift; typeclasses eauto|].
  intros cg.
  apply phases_bind_first.
  { eapply extends_mono; [|apply install_pio_dependencies_installs].
    unfold before_source. tauto. }
  intros _.
  apply phases_bind_first.
  { eapply extends_mono; [|apply install_git_dependencies_installs].
    unfold before_source. tauto. }
  intros _ w. apply in_phases_skip, (in_phases_pad _ []).
  apply write_source_writes.
Qed.

(** X13.  What a run does comes in three parts, in this order: first it
    echoes, reads the server, calls the synthesis, imports plugins and
    installs dependencies; then it opens and writes [src.ino] in the [src]
    folder of the project; last it runs the [platformio run] command.  So
    every dependency is installed before the source file is opened, the
    project is compiled after the source file is written, and a run opens
    or writes no other file, makes no directory, and removes and links
    nothing. *)
Theorem run_in_three_parts categories modules_file project_dir plugin_names
    target status_update_interval w :
  ∃ before written compiled,
    trace (run categories modules_file project_dir plugin_names target
               status_update_interval w).2
    = trace w ++ before ++ written ++ compiled ∧
    Forall (before_source modules_file) before ∧
    Forall (writes_to (src_file_path project_dir)) written ∧
    Forall compile_event compiled ∧
    ∀ e, e ∈ before ++ compiled →
         match e with
         | OpenWrite _ | WriteText _ _ | Mkdir _ | Remove _ | Symlink _ _ =>
             False
         | _ => True
         end.
Proof.
  assert (stable (in_phases [before_source modules_file;
                             writes_to (src_file_path project_dir);
                             compile_event])
            (run categories modules_file project_dir plugin_names target
                 status_update_interval)) as Hrun.
  { unfold run.
    apply phases_bind_first.
    { eapply extends_mono; [|apply resolve_modules_events].
      unfold before_source. tauto. }
    intros modules.
    apply phases_bind_first.
    { eapply extends_mono; [|apply create_plugins_events].
      unfold before_source. tauto. }
    intros plugins.
    apply (phases_bind_last compile_event
             [before_source modules_file;
              writes_to (src_file_path project_dir)]).
    - apply generate_phases.
    - intros _. apply compile_events. }
  destruct (Hrun w) as (segments & Htrace & Hsegs).
  destruct segments as [|before [|written [|compiled [|x l]]]];
    try (by apply Forall2_length in Hsegs).
  apply Forall2_cons in Hsegs as [Hbefore Hsegs].
  apply Forall2_cons in Hsegs as [Hwritten Hsegs].
  apply Forall2_cons in Hsegs as [Hcompiled _].
  exists before, written, compiled.
  split; [rewrite Htrace; simpl; by rewrite app_nil_r|].
  split; [done|]. split; [done|]. split; [done|].
  intros e [He|He]%elem_of_app.
  - rewrite Forall_forall in Hbefore. specialize (Hbefore e He).
    unfold before_source, resolve_event, type_loading_event,
      module_loading_event in Hbefore.
    destruct e, modules_file; simpl in *; intuition congruence.
  - rewrite Forall_forall in Hcompiled. specialize (Hcompiled e He).
    by destruct e.
Qed.

(** X14.  A run that ends without an exception was given an initialized
    project (a [platformio.ini]) with a [lib] folder, and a modules file
    or a configured server; without a [platformio.ini] it fails at once,
    with the [ClickException] of a directory that is no project, and
    leaves the world as it is. *)
Theorem run_requirements categories modules_file project_dir plugin_names
    target status_update_interval w :
  ((run categories modules_file project_dir plugin_names target
        status_update_interval w).1 = Ok tt →
   isfile (fsys w) (path_join (abspath project_dir) "platformio.ini") = true ∧
   isdir (fsys w) (path_join (abspath project_dir) "lib") = true ∧
   (is_Some modules_file ∨ truthy local_server_url = true)) ∧
  (isfile (fsys w) (path_join (abspath project_dir) "platformio.ini") = false →
   run categories modules_file project_dir plugin_names target
       status_update_interval w = (Raise not_a_project, w)).
Proof.
  split.
  - destruct (run _ _ _ _ _ _ w) as [r w'] eqn:Hrun. simpl. intros ->.
    unfold run in Hrun.
    apply bind_ok_inv in Hrun as (modules & w1 & Hres & _).
    unfold resolve_modules in Hres.
    rewrite (bind_ok _ _ _ _ _ (isfile_run _ w)) in Hres.
    destruct (isfile _ _); [|done]. simpl in Hres. split; [done|].
    apply bind_ok_inv in Hres as (mts & w2 & Htypes & Hres).
    apply bind_ok_inv in Hres as (ms & w3 & Hmods & _).
    split.
    + unfold load_module_types in Htypes.
      apply bind_ok_inv in Htypes as (mts0 & w0 & Hserver & Hlib).
      assert (fsys w0 = fsys w) as Hfs.
      { destruct (truthy local_server_url).
        - pose proof (load_server_types_same_fs
                        (default "" local_server_url) ∅ w) as Hsame.
          by rewrite Hserver in Hsame.
        - by injection Hserver as _ <-. }
      unfold load_lib_types in Hlib.
      apply bind_ok_inv in Hlib as (names & w4 & Hlist & _).
      unfold os_listdir, mbind, M_bind, bind, get_fs in Hlist.
      simpl in Hlist. rewrite Hfs in Hlist.
      by destruct (isdir (fsys w) _).
    + unfold load_modules in Hmods.
      destruct modules_file; [left; eauto|].
      destruct (truthy local_server_url); [by right|done].
  - intros Hini. unfold run. apply bind_raise.
    unfold resolve_modules.
    rewrite (bind_ok _ _ _ _ _ (isfile_run _ w)). by rewrite Hini.
Qed.

(** X15.  When the modules are resolved, the plugins created and the
    source generated, the outcome of the run is that of the command
    [platformio run], which is given [-t] and the target when there is a
    target that is not the empty string: the run ends without an
    exception when the status is zero and fails with the
    [ClickException] of a failed compilation otherwise.  Either way the
    world is the one the generation has left, with the command run in the
    project directory: a failed compilation undoes nothing. *)
Theorem compilation_outcome categories modules_file project_dir plugin_names
    target status_update_interval w modules w1 plugins w2 w3 status f' :
  resolve_modules categories modules_file (abspath project_dir) w
    = (Ok modules, w1) →
  create_plugins plugin_names modules w1 = (Ok plugins, w2) →
  generate (abspath project_dir) modules plugins status_update_interval w2
    = (Ok tt, w3) →
  run_process
    (["platformio"; "run"] ++
     (if truthy target then ["-t"; default "" target] else []))
    (Some (abspath project_dir)) (fsys w3) = Ok (status, f') →
  run categories modules_file project_dir plugin_names target
      status_update_interval w =
  (if (status =? 0)%Z then Ok tt
   else Raise (ClickException "Compilation failed"),
   set_fsys f'
     (log (Subprocess
             (["platformio"; "run"] ++
              (if truthy target then ["-t"; default "" target] else []))
             (Some (abspath project_dir))) w3)).
Proof.
  intros Hres Hplug Hgen Hproc. unfold run.
  erewrite bind_ok by exact Hres.
  erewrite bind_ok by exact Hplug.
  erewrite bind_ok by exact Hgen.
  unfold compile.
  erewrite bind_ok by (apply InitMore.subprocess_call_run; exact Hproc).
  by destruct (status =? 0)%Z.
Qed.

End Run.

End RunMore.

Module RunMoreExamples.

Import Firmware RunMore Demo DemoMore.

(** A run of [/p] with the [csv] plugin: the command ends with status
    zero and so does the run. *)
Lemma compilation_outcome_witness :
  (run ["sensors"] (Some "modules.json") "/p" ["csv"] None 5 start).1 = Ok tt.
Proof.
  rewrite (compilation_outcome ["sensors"] (Some "modules.json") "/p" ["csv"]
             None 5 start modules
             (resolve_modules ["sensors"] (Some "modules.json") "/p" start).2
             csv_plugins
             (resolve_modules ["sensors"] (Some "modules.json") "/p" start).2
             (generate "/p" modules csv_plugins 5
                (resolve_modules ["sensors"] (Some "modules.json") "/p"
                   start).2).2
             0%Z
             (fsys (generate "/p" modules csv_plugins 5
                      (resolve_modules ["sensors"] (Some "modules.json") "/p"
                         start).2).2)).
  - reflexivity.
  - vm_compute. reflexivity.
  - vm_compute. reflexivity.
  - vm_compute. reflexivity.
  - vm_compute. reflexivity.
Defined.

End RunMoreExamples.

(** ** The dependencies *)

Module DependenciesMore.

Import Traces Firmware RunModuleTheory Stages SourcesTheory InitMore.

Lemma contains_rev_app (c : ascii) (s1 s2 : string) :
  contains c (String.rev_app s1 s2) = contains c s1 || contains c s2.
Proof.
  revert s2. induction s1 as [|a s1 IH]; intros s2; simpl; [done|].
  rewrite IH. simpl. by destruct (Ascii.eqb a c), (contains c s1).
Qed.

Lemma contains_rev (c : ascii) (s : string) :
  contains c (String.rev s) = contains c s.
Proof. unfold String.rev. rewrite contains_rev_app. simpl. apply orb_false_r. Qed.

(** The pieces of a split have the characters of the string only. *)
Lemma split_go_chars (sep c : ascii) (acc s : string) (piece : string) :
  contains c acc = false → contains c s = false →
  piece ∈ split_go sep acc s → contains c piece = false.
Proof.
  revert acc. induction s as [|a s IH]; intros acc Hacc Hs Hin; simpl in *.
  - apply list_elem_of_singleton in Hin as ->. by rewrite contains_rev.
  - apply orb_false_iff in Hs as [Ha Hs].
    destruct (Ascii.eqb a sep).
    + apply elem_of_cons in Hin as [->|Hin]; [by rewrite contains_rev|].
      by apply (IH EmptyString).
    + apply (IH (String a acc)); [|done|done]. simpl. by rewrite Ha.
Qed.

(** The pieces of a split do not have the separator. *)
Lemma split_go_no_sep (sep : ascii) (acc s : string) (piece : string) :
  contains sep acc = false →
  piece ∈ split_go sep acc s → contains sep piece = false.
Proof.
  revert acc. induction s as [|a s IH]; intros acc Hacc Hin; simpl in *.
  - apply list_elem_of_singleton in Hin as ->. by rewrite contains_rev.
  - destruct (Ascii.eqb a sep) eqn:Ha.
    + apply elem_of_cons in Hin as [->|Hin]; [by rewrite contains_rev|].
      by apply (IH EmptyString).
    + apply (IH (String a acc)); [|done]. simpl. by rewrite Ha.
Qed.

Lemma split_go_not_nil (sep : ascii) (acc s : string) :
  split_go sep acc s ≠ [].
Proof.
  revert acc. induction s as [|a s IH]; intros acc; simpl; [done|].
  destruct (Ascii.eqb a sep); [done|apply IH].
Qed.

Lemma last_item_split (sep : ascii) (s : string) :
  ∃ piece, last_item (Py.split sep s) = Ok piece ∧
           piece ∈ Py.split sep s.
Proof.
  unfold last_item, Py.split.
  pose proof (split_go_not_nil sep EmptyString s) as Hne.
  destruct (last (split_go sep EmptyString s)) as [piece|] eqn:Hlast.
  - exists piece. split; [done|].
    apply last_Some in Hlast as [l ->]. apply elem_of_app. right. left.
  - by apply last_None in Hlast.
Qed.

Lemma first_item_split (sep : ascii) (s : string) :
  ∃ piece, first_item (Py.split sep s) = Ok piece ∧
           piece ∈ Py.split sep s.
Proof.
  unfold first_item, Py.split.
  pose proof (split_go_not_nil sep EmptyString s) as Hne.
  destruct (split_go sep EmptyString s) as [|piece l]; [done|].
  exists piece. split; [done|left].
Qed.

(** The name of the folder of a dependency: it is always there, and it
    has no slash and no dot. *)
Lemma folder_name (dep : string) :
  ∃ last_piece name,
    last_item (Py.split "/" dep) = Ok last_piece ∧
    first_item (Py.split "." last_piece) = Ok name ∧
    contains "/" name = false ∧ contains "." name = false.
Proof.
  destruct (last_item_split "/" dep) as (last_piece & Hlast & Hin).
  destruct (first_item_split "." last_piece) as (name & Hfirst & Hin').
  exists last_piece, name. split; [done|]. split; [done|].
  apply (split_go_no_sep _ EmptyString) in Hin; [|done].
  split.
  - by apply (split_go_chars "." "/" EmptyString last_piece).
  - by apply (split_go_no_sep "." EmptyString last_piece).
Qed.

Section Dependencies.

Context `{Collaborators}.

(** X16.  The folder of a source-control dependency is named by the last
    piece of the address between slashes, cut at its first dot: the name
    is always there (no address makes the derivation fail) and has
    neither a slash nor a dot.  When the name is not empty and the
    generator yields this one dependency, the run echoes and calls one
    command: [git pull] in the folder of that name under the [lib] folder
    of the project when that folder is a directory, and [git clone] of
    the address in the [lib] folder otherwise. *)
Theorem git_dependency_folder project_dir cg dep w :
  ∃ last_piece name,
    last_item (Py.split "/" dep) = Ok last_piece ∧
    first_item (Py.split "." last_piece) = Ok name ∧
    contains "/" name = false ∧ contains "." name = false ∧
    (name ≠ "" →
     all_git_dependencies cg (heap w) = ([dep], None) →
     trace (install_git_dependencies
              (path_join (abspath project_dir) "lib") cg w).2 =
     trace w ++
     (if isdir (fsys w)
               (path_join (path_join (abspath project_dir) "lib") name)
      then [Echo ("Updating " +:+ dq +:+ name +:+ dq);
            Subprocess ["git"; "pull"]
              (Some (path_join (path_join (abspath project_dir) "lib")
                               name))]
      else [Echo ("Downloading " +:+ dq +:+ name +:+ dq);
            Subprocess ["git"; "clone"; dep]
              (Some (path_join (abspath project_dir) "lib"))])).
Proof.
  destruct (folder_name dep) as (last_piece & name & Hlast & Hfirst & Hs & Hd).
  exists last_piece, name. do 4 (split; [done|]).
  intros _ Hgen. set (lib_dir := path_join (abspath project_dir) "lib").
  unfold install_git_dependencies.
  erewrite bind_ok by reflexivity. rewrite Hgen.
  unfold for_gen, for_each, bind. simpl.
  unfold mbind at 1, M_bind, bind, lift. rewrite Hlast.
  unfold mbind at 1, M_bind, bind. rewrite Hfirst.
  rewrite (bind_ok _ _ _ _ _ (isdir_run _ w)).
  destruct (isdir (fsys w) (path_join lib_dir name)).
  - cbv [mbind M_bind bind emit subprocess_call get_fs lift put_fs mret
           M_ret ret]. simpl.
    match goal with
    | |- context [run_process ?a ?b ?c] =>
        destruct (run_process a b c) as [[status f']|e]
    end; simpl; by rewrite <- app_assoc.
  - cbv [mbind M_bind bind emit subprocess_call get_fs lift put_fs mret
           M_ret ret]. simpl.
    match goal with
    | |- context [run_process ?a ?b ?c] =>
        destruct (run_process a b c) as [[status f']|e]
    end; simpl; by rewrite <- app_assoc.
Qed.

(** The installations of the registry dependencies, one after the
    other. *)
Lemma install_loop (deps : list string) (w : world) :
  (∀ dep f, ∃ status f',
     run_process ["platformio"; "lib"; "install"; dep] None f
     = Ok (status, f')) →
  (for_each deps (λ dep,
     subprocess_call ["platformio"; "lib"; "install"; dep] None;;
     mret tt) w).1 = Ok tt ∧
  trace (for_each deps (λ dep,
     subprocess_call ["platformio"; "lib"; "install"; dep] None;;
     mret tt) w).2 =
  trace w ++
  ((λ dep, Subprocess ["platformio"; "lib"; "install"; dep] None) <$> deps) ∧
  heap (for_each deps (λ dep,
     subprocess_call ["platformio"; "lib"; "install"; dep] None;;
     mret tt) w).2 = heap w.
Proof.
  intros Hproc.
  set (body := λ dep : string,
         subprocess_call ["platformio"; "lib"; "install"; dep] None;;
         mret tt).
  revert w. induction deps as [|dep deps IH]; intros w.
  - simpl. by rewrite app_nil_r.
  - destruct (Hproc dep (fsys w)) as (status & f' & Hrun).
    set (w1 := set_fsys f'
                 (log (Subprocess ["platformio"; "lib"; "install"; dep] None)
                      w)).
    assert (for_each (dep :: deps) body w = for_each deps body w1) as ->.
    { assert (body dep w = (Ok tt, w1)) as Hbody.
      { unfold body.
        by erewrite bind_ok by (apply subprocess_call_run; exact Hrun). }
      simpl. unfold bind. by rewrite Hbody. }
    destruct (IH w1) as (Hok & Htrace & Hheap).
    split; [done|]. split; [|done].
    rewrite Htrace. unfold w1. simpl. by rewrite <- app_assoc.
Qed.

(** X17.  When the installing command can be started, the registry
    dependencies are installed one by one, in the order in which the
    generator yields them, with one [platformio lib install] each; the
    status with which an installation ends is not looked at.  The outcome
    is the exception of the generator, if it raises one. *)
Theorem registry_dependencies_in_order cg w :
  (∀ dep f, ∃ status f',
     run_process ["platformio"; "lib"; "install"; dep] None f
     = Ok (status, f')) →
  (install_pio_dependencies cg w).1 =
    match (all_pio_dependencies cg (heap w)).2 with
    | Some e => Raise e
    | None => Ok tt
    end ∧
  trace (install_pio_dependencies cg w).2 =
    trace w ++
    ((λ dep, Subprocess ["platformio"; "lib"; "install"; dep] None)
       <$> (all_pio_dependencies cg (heap w)).1).
Proof.
  intros Hproc. unfold install_pio_dependencies.
  erewrite bind_ok by reflexivity. unfold for_gen, bind.
  destruct (install_loop (all_pio_dependencies cg (heap w)).1 w Hproc)
    as (Hok & Htrace & _).
  destruct (for_each _ _ w) as [[[]|e] w']; simpl in *; [|done].
  by destruct (all_pio_dependencies cg (heap w)).2.
Qed.

End Dependencies.

End DependenciesMore.

Module DependenciesMoreExamples.

Import Firmware DependenciesMore Demo DemoMore.

(** The folder of an address whose last piece has two dots is cut at the
    first one. *)
Example dotted_repository_name :
  res_bind (last_item (Py.split "/" "https://example.com/libs/my.lib.git"))
           (λ last_piece, first_item (Py.split "." last_piece))
  = Ok "my".
Proof. reflexivity. Qed.

(** The one source-control dependency of the small project, whose folder
    [foo] is not in [/p/lib] yet. *)
Lemma git_dependency_folder_witness :
  trace (install_git_dependencies "/p/lib" csv_codegen resolved).2 =
  [Echo ("Downloading " +:+ dq +:+ "foo" +:+ dq);
   Subprocess ["git"; "clone"; "https://example.com/libs/foo.git"]
     (Some "/p/lib")].
Proof.
  destruct (git_dependency_folder "/p" csv_codegen
              "https://example.com/libs/foo.git" resolved)
    as (last_piece & name & Hlast & Hfirst & _ & _ & Hrun).
  vm_compute in Hlast. injection Hlast as <-.
  vm_compute in Hfirst. injection Hfirst as <-.
  apply Hrun; [discriminate|reflexivity].
Defined.

Lemma registry_dependencies_in_order_witness :
  trace (install_pio_dependencies csv_codegen resolved).2 =
  [Subprocess ["platformio"; "lib"; "install"; "rosserial_arduino"] None].
Proof.
  destruct (registry_dependencies_in_order csv_codegen resolved)
    as (_ & Htrace).
  - intros dep f. exists 0%Z, f. reflexivity.
  - exact Htrace.
Defined.

End DependenciesMoreExamples.

(** ** [run_module] *)

Module ModuleMore.

Import Traces Firmware RunModuleTheory Stages SourcesTheory TypesTheory
  SourceFileTheory.

#[export] Instance keeps_files_preorder : PreOrder keeps_files.
Proof.
  split.
  - by intros w.
  - intros w1 w2 w3 [Hf1 Hd1] [Hf2 Hd2]. split; [by etrans|congruence].
Qed.

Lemma stable_for_each_elem (R : relation world) `{!PreOrder R} {A}
    (xs : list A) (body : A → M unit) :
  (∀ x, x ∈ xs → stable R (body x)) → stable R (for_each xs body).
Proof.
  induction xs as [|x xs IH]; intros Hbody; simpl.
  - apply stable_ret; typeclasses eauto.
  - apply stable_bind; [typeclasses eauto|apply Hbody; left|].
    intros _ _. apply IH. intros y Hy. apply Hbody. by right.
Qed.

Lemma remove_keeps_files (path : string) : stable keeps_files (os_remove path).
Proof.
  intros w. unfold os_remove, mbind, M_bind, bind, get_fs. simpl.
  repeat case_bool_decide; simpl; split; try done.
  apply delete_subseteq.
Qed.

Lemma symlink_keeps_files (source dir name : string) :
  stable keeps_files (os_symlink source dir name).
Proof.
  intros w. unfold os_symlink, mbind, M_bind, bind, get_fs. simpl.
  by destruct (_ || _).
Qed.

Lemma remove_same_heap (path : string) : stable same_heap (os_remove path).
Proof. unfold os_remove. stable_go. Qed.

Lemma symlink_same_heap (source dir name : string) :
  stable same_heap (os_symlink source dir name).
Proof. unfold os_symlink. stable_go. Qed.

Lemma read_text_missing (p : string) (w : world) :
  isfile (fsys w) p = false → read_text p w = (Raise IOError, w).
Proof.
  intros Hfile. unfold read_text, mbind, M_bind, bind, get_fs. simpl.
  unfold isfile in Hfile. apply bool_decide_eq_false in Hfile.
  destruct (files (fsys w) !! resolve (fsys w) p) eqn:Hp; [|done].
  exfalso. apply Hfile. by exists s.
Qed.

Section Module.

Context `{Collaborators}.

(** X18.  Without a [module.json] in the module directory, [run_module]
    ends with the [ClickException] that says so, and it has done nothing:
    no build directory, no project, no link; the arguments have not been
    looked at. *)
Theorem missing_module_json arguments project_dir board categories
    plugin_names target status_update_interval w :
  isfile (fsys w) (path_join (abspath project_dir) "module.json") = false →
  run_module arguments project_dir board categories plugin_names target
    status_update_interval w =
  (Raise (ClickException "No module.json file found"), w).
Proof.
  intros Hfile. unfold run_module, prepare_build.
  apply bind_raise. apply bind_raise.
  unfold read_module_type, try_except.
  erewrite bind_raise by (by apply read_text_missing). done.
Qed.

(** X19.  What [run_module] writes as the modules of the build is what it
    reads back for the run: when the writing succeeds, the file is the
    [modules.json] of the build directory and reading it gives the dump
    of the one module [module], of type [module] and with the parsed
    arguments, whatever the file held before. *)
Theorem modules_file_round_trip build_path real_args w path w' :
  write_modules_file build_path real_args w = (Ok path, w') →
  path = path_join build_path "modules.json" ∧
  ∃ module text,
    FirmwareModule
      (PDict [("type", PStr "module");
              ("arguments", PList (of_arg_val <$> real_args))]) = Ok module ∧
    json_dump (PDict [("module", module)]) = Ok text ∧
    read_text path w' = (Ok text, w').
Proof.
  intros Hrun. unfold write_modules_file in Hrun.
  apply bind_ok_inv in Hrun as (module & w1 & Hmodule & Hrun).
  apply bind_ok_inv in Hrun as (f & w2 & Hopen & Hrun).
  apply bind_ok_inv in Hrun as (text & w3 & Hdump & Hrun).
  unfold lift in Hmodule, Hdump.
  injection Hmodule as Hmodule <-. injection Hdump as Hdump <-.
  unfold open_w, mbind, M_bind, bind, get_fs in Hopen. simpl in Hopen.
  destruct (negb _ || _); [done|]. simpl in Hopen.
  injection Hopen as <- <-.
  unfold file_write, mbind, M_bind, bind, get_fs in Hrun. simpl in Hrun.
  injection Hrun as <- <-.
  split; [done|]. exists module, text. split_and!; [done..|].
  unfold read_text, mbind, M_bind, bind, get_fs, resolve. simpl.
  by rewrite !lookup_insert_eq.
Qed.

(** X20.  Linking the sources (lines 265-273) only removes and creates
    entries of the [module] folder: each removal and each link is for a
    name that the module directory lists and that does not start with a
    dot, and the link points three directories up, to the file of that
    name.  No file is written or created, no directory is made, and the
    dictionaries are as before. *)
Theorem link_sources_links here module_path w :
  keeps_files w (link_sources here module_path w).2 ∧
  heap (link_sources here module_path w).2 = heap w ∧
  ∀ names,
    (os_listdir here w).1 = Ok names →
    extends (link_event names module_path) w
            (link_sources here module_path w).2.
Proof.
  split_and!.
  - revert w. change (stable keeps_files (link_sources here module_path)).
    unfold link_sources. stable_go.
    all: first [apply remove_keeps_files | apply symlink_keeps_files].
  - revert w. change (stable same_heap (link_sources here module_path)).
    unfold link_sources. stable_go.
    all: first [apply remove_same_heap | apply symlink_same_heap].
  - intros names Hnames. unfold link_sources.
    destruct (listdir_run here w) as [Hw _].
    destruct (os_listdir here w) as [r w0] eqn:Hlist. simpl in *. subst.
    unfold mbind at 1, M_bind, bind. rewrite Hlist.
    apply stable_for_each_elem; [typeclasses eauto|].
    intros file_name Hin.
    apply stable_bind; [typeclasses eauto|stable_go|]. intros isf _.
    destruct (negb isf || startswith file_name ".") eqn:Hskip; [stable_go|].
    apply orb_false_iff in Hskip as [_ Hdot].
    stable_go.
    + apply remove_events. exists file_name. eauto.
    + apply symlink_events. exists file_name. eauto.
Qed.

End Module.

End ModuleMore.

Module ModuleMoreExamples.

Import Firmware ModuleMore Demo DemoMore.

Lemma missing_module_json_witness :
  run_module ["7"] "/p" "uno" ["sensors"] [] None 5%Z start =
  (Raise (ClickException "No module.json file found"), start).
Proof. apply missing_module_json. vm_compute. reflexivity. Defined.

Lemma modules_file_round_trip_witness :
  ∃ w', write_modules_file "/p" [VInt 7] start = (Ok "/p/modules.json", w') ∧
        read_text "/p/modules.json" w' = (Ok "modules.json", w').
Proof.
  destruct (write_modules_file "/p" [VInt 7] start) as [r w'] eqn:Hrun.
  assert (r = Ok "/p/modules.json") as ->.
  { change r with (r, w').1. rewrite <- Hrun. vm_compute. reflexivity. }
  exists w'. split; [done|].
  destruct (modules_file_round_trip _ _ _ _ _ Hrun)
    as (_ & module & text & Hmodule & Hdump & Hread).
  rewrite Hread. f_equal. f_equal.
  injection Hmodule as <-. vm_compute in Hdump. congruence.
Defined.

(** Linking the sources of [/m], whose files are [module.json] and
    [driver.cpp], into [/p/lib]. *)
Example linking_the_sensor :
  trace (link_sources "/m" "/p/lib" start).2 =
  [Symlink "../../../module.json" "/p/lib/module.json";
   Symlink "../../../driver.cpp" "/p/lib/driver.cpp"].
Proof. vm_compute. reflexivity. Qed.

End ModuleMoreExamples.
